(** * Checkpoint rotation of [assignment3/utils.py]

    A shallow embedding of [save_checkpoint], [get_previous_checkpoints]
    and [load_best_checkpoint], and the properties of the checkpoint store
    they implement.

    The functions act on one directory ([filepath.parent], resp.
    [directory]).  The embedding threads the state of that directory
    through a small state-and-exception monad; a Python exception leaves
    the effects performed before it in place, as in the source. *)

From Stdlib Require Import ZArith Ascii String.
From stdpp Require Import gmap strings list fin_maps.

Local Open Scope Z_scope.

(** ** Python text primitives *)

Module Py.

(** Characters are code points; the embedding covers code points below 256. *)
Definition LF : ascii := "010"%char.
Definition CR : ascii := "013"%char.

(** [str.isspace] on one character, for code points below 256:
    TAB..CR, FS..US, SPACE, NEL and NBSP. *)
Definition isspace (c : ascii) : bool :=
  let n := nat_of_ascii c in
  ((9 <=? n)%nat && (n <=? 13)%nat) || ((28 <=? n)%nat && (n <=? 32)%nat)
  || (n =? 133)%nat || (n =? 160)%nat.

Fixpoint lstrip (t : string) : string :=
  match t with
  | EmptyString => EmptyString
  | String c r => if isspace c then lstrip r else t
  end.

Fixpoint rstrip (t : string) : string :=
  match t with
  | EmptyString => EmptyString
  | String c r =>
      match rstrip r with
      | EmptyString => if isspace c then EmptyString else String c EmptyString
      | r' => String c r'
      end
  end.

(** [t.strip()] *)
Definition strip (t : string) : string := rstrip (lstrip t).

(** [sep.join(l)] *)
Fixpoint join (sep : string) (l : list string) : string :=
  match l with
  | [] => EmptyString
  | [x] => x
  | x :: l' => x +:+ sep +:+ join sep l'
  end.

(** Text-mode reading with universal newlines: CR LF and a lone CR both
    arrive as LF. *)
Fixpoint universal_newlines (t : string) : string :=
  match t with
  | EmptyString => EmptyString
  | String c r =>
      if Ascii.eqb c CR then
        match r with
        | String c' r' =>
            if Ascii.eqb c' LF then String LF (universal_newlines r')
            else String LF (universal_newlines r)
        | EmptyString => String LF EmptyString
        end
      else String c (universal_newlines r)
  end.

(** [fp.readlines()] on text already translated: cut after every LF, the LF
    stays at the end of its line. *)
Fixpoint readlines (t : string) : list string :=
  match t with
  | EmptyString => []
  | String c r =>
      if Ascii.eqb c LF then String c EmptyString :: readlines r
      else match readlines r with
           | [] => [String c EmptyString]
           | l :: ls => String c l :: ls
           end
  end.

(** Start and stop of a slice, [l[k:]] and [l[:k]]: a negative index counts
    from the end, and both are clamped to the list. *)
Definition slice_index (k : Z) (len : nat) : nat :=
  if k <? 0 then Z.to_nat (Z.max 0 (Z.of_nat len + k)) else Z.to_nat k.

Definition slice_from {A} (k : Z) (l : list A) : list A :=
  drop (slice_index k (length l)) l.

Definition slice_to {A} (k : Z) (l : list A) : list A :=
  take (slice_index k (length l)) l.

(** [x in l] on a list of strings *)
Definition contains (x : string) (l : list string) : bool :=
  bool_decide (x ∈ l).

Fixpoint has_char (c : ascii) (t : string) : bool :=
  match t with
  | EmptyString => false
  | String c' r => Ascii.eqb c c' || has_char c r
  end.

End Py.

(** ** The directory and the exceptions *)

Inductive exn :=
  | AssertionError
  | FileExistsError
  | FileNotFoundError
  | NotADirectoryError
  | IsADirectoryError
  | UnicodeDecodeError
  | UnpicklingError
  | RuntimeError   (* the file writer of [torch.save] cannot open the path *)
  | Untracked.     (* the path leaves the directory: outside this model *)

Inductive result (A : Type) :=
  | Ok (a : A)
  | Raise (e : exn).
Arguments Ok {A} a.
Arguments Raise {A} e.

(** Where [directory.joinpath(p)] points. *)
Inductive target :=
  | Self                 (* the directory itself *)
  | Child (n : string)   (* an entry of the directory *)
  | Below (n : string)   (* a path through the entry [n] *)
  | Elsewhere.           (* an absolute path, or one that starts with [..] *)

Definition NUL : ascii := "000"%char.

(** The pieces of a path between its separators. *)
Fixpoint pieces (p : string) : list string :=
  match p with
  | EmptyString => [EmptyString]
  | String c r =>
      if Ascii.eqb c "/" then EmptyString :: pieces r
      else match pieces r with
           | [] => [String c EmptyString]
           | x :: xs => String c x :: xs
           end
  end.

(** The components pathlib keeps: it drops the empty pieces and the [.]
    pieces, so [a/], [./a] and [a/.] all have the one component [a]. *)
Definition components (p : string) : list string :=
  filter (λ c, c ≠ "" ∧ c ≠ ".") (pieces p).

(** A path without components is the directory itself, one component names
    an entry, more go through an entry.  An absolute path replaces the
    directory and a first component [..] leaves it: neither is followed,
    and nor is a path with a null character, which no file has. *)
Definition joinpath (p : string) : target :=
  if Py.has_char NUL p then Elsewhere
  else match p with
       | String "/" _ => Elsewhere
       | _ =>
           match components p with
           | [] => Self
           | n :: rest =>
               if bool_decide (n = "..") then Elsewhere
               else match rest with
                    | [] => Child n
                    | _ :: _ => Below n
                    end
           end
       end.

Definition list_path : string := "latest_checkpoint".
Definition best_path : string := "best.ckpt".
Definition newline : string := String Py.LF "".

(** ** Lines written and read back *)

(** The lines [get_previous_checkpoints] makes of a text. *)
Definition manifest_lines (t : string) : list string :=
  Py.strip <$> Py.readlines (Py.universal_newlines t).

(** A name that survives being written on a line of its own and read back:
    not empty, no line break inside, nothing for [strip] to remove. *)
Definition line_safe (n : string) : bool :=
  negb (String.eqb n "") && negb (Py.has_char Py.LF n)
  && negb (Py.has_char Py.CR n) && String.eqb (Py.strip n) n.

(** A checkpoint name: an entry of the directory, safe on a line, and not
    the manifest itself. *)
Definition plain_name (n : string) : bool :=
  line_safe n
  && match joinpath n with Child m => String.eqb m n | _ => false end
  && negb (String.eqb n list_path).

(** ** Devices *)

(** [get_device()]; the arguments are the answers of
    [torch.cuda.is_available()] and [torch.backends.mps.is_available()]. *)
Definition get_device (cuda_available mps_available : bool) : string :=
  if cuda_available then "cuda" else if mps_available then "mps" else "cpu".

Section ToCuda.

(** The objects that have a [to] method (tensors, modules), and the
    method. *)
Variable Tensor : Type.
Variable to : Tensor → string → Tensor.

(** What [to_cuda] is given: such an object, a tuple or a list, or any
    other object ([None], a number, an array), kept by its text. *)
#[warnings="-register-all"]
Inductive value :=
  | Object (x : Tensor)
  | Plain (repr : string)
  | PyTuple (l : list value)
  | PyList (l : list value).

(** [x.to(device)]; a tuple, a list and the other objects have no
    attribute [to], and [None] is the [AttributeError]. *)
Definition to_method (device : string) (x : value) : option value :=
  match x with
  | Object t => Some (Object (to t device))
  | Plain _ | PyTuple _ | PyList _ => None
  end.

(** [to_cuda(elements)]; the comprehension stops at the first exception. *)
Definition to_cuda (cuda_available mps_available : bool) (elements : value)
  : option value :=
  let device := get_device cuda_available mps_available in
  match elements with
  | PyTuple l | PyList l => PyList <$> mapM (to_method device) l
  | Object _ | Plain _ => to_method device elements
  end.

End ToCuda.

Arguments Object {Tensor} x.
Arguments Plain {Tensor} repr.
Arguments PyTuple {Tensor} l.
Arguments PyList {Tensor} l.
Arguments to_method {Tensor} to device x.
Arguments to_cuda {Tensor} to cuda_available mps_available elements.

(** ** Loss curves *)

Section PlotLoss.

(** The keys of [loss_dict], the tensors and the numbers among its values,
    and the library calls on them: [loss_val.cpu().numpy()], the text of
    [type(...)], [np.mean], [np.std], and subtraction and addition of
    numbers.  [Tensor] holds the tensors that [numpy()] converts; one that
    requires grad makes it raise [RuntimeError] in the comprehension,
    before anything is printed, and a dictionary with such a value is not
    an argument of [plot_loss] here. *)
Variables Step Tensor Num : Type.
Variable cpu_numpy : Tensor → Num.
Variable type_of_step : Step → string.
Variable type_of_loss : Num → string.
Variable np_mean np_std : list Num → Num.
Variable np_sub np_add : Num → Num → Num.

Inductive loss_val :=
  | TensorLoss (t : Tensor)
  | NumberLoss (v : Num).

(** The calls [plot_loss] makes, in order; [fill_between] always gets
    [alpha=0.2]. *)
Inductive output :=
  | Print (s : string)
  | Plot (x : list Step) (y : list Num) (label : option string)
  | FillBetween (x : list Step) (y1 y2 : list Num) (label : string).

Inductive outcome :=
  | Returned
  | IndexError.

(** [f"{label}"]: [None] is printed as its name. *)
Definition format_label (label : option string) : string :=
  default "None" label.

(** [l[start:stop]] for indices that are not negative. *)
Definition slice {A} (start stop : nat) (l : list A) : list A :=
  take (stop - start) (drop start l).

(** The loop over [range(num_points)], with the three lists it appends
    to; [None] is the [IndexError] of [global_steps[...]]. *)
Fixpoint average_loop (npoints_to_average : nat) (global_steps : list Step)
    (loss : list Num) (range : list nat)
    (mean_loss loss_std : list Num) (steps : list Step)
  : option (list Num * list Num * list Step) :=
  match range with
  | [] => Some (mean_loss, loss_std, steps)
  | i :: rest =>
      let points :=
        slice (i * npoints_to_average) ((i + 1) * npoints_to_average) loss in
      match global_steps !! (i * npoints_to_average + npoints_to_average / 2)%nat
      with
      | None => None
      | Some step =>
          average_loop npoints_to_average global_steps loss rest
            (mean_loss ++ [np_mean points]) (loss_std ++ [np_std points])
            (steps ++ [step])
      end
  end.

(** [plot_loss(loss_dict, label, npoints_to_average, plot_variance)]; the
    dictionary is the list of its items in insertion order. *)
Definition plot_loss (loss_dict : list (Step * loss_val))
    (label : option string) (npoints_to_average : Z) (plot_variance : bool)
  : list output * outcome :=
  let global_steps := loss_dict.*1 in
  let loss := loss_dict.*2 in
  let loss :=
    (λ loss_val, match loss_val with
                 | TensorLoss t => cpu_numpy t
                 | NumberLoss v => v
                 end) <$> loss in
  match global_steps !! 0%nat with
  | None => ([], IndexError)
  | Some step0 =>
  let out := [Print ("global_steps[0] type: " +:+ type_of_step step0)] in
  match loss !! 0%nat with
  | None => (out, IndexError)
  | Some loss0 =>
  let out := out ++ [Print ("loss[0] type: " +:+ type_of_loss loss0)] in
  if (npoints_to_average =? 1) || negb plot_variance
  then (out ++ [Plot global_steps loss label], Returned)
  else
    let npoints_to_average := 10%nat in
    let num_points := (length loss / npoints_to_average)%nat in
    match average_loop npoints_to_average global_steps loss
            (seq 0 num_points) [] [] [] with
    | None => (out, IndexError)
    | Some (mean_loss, loss_std, steps) =>
        (out ++
         [Plot steps mean_loss
            (Some (format_label label +:+ " (mean over 10 steps)"));
          FillBetween steps
            (zip_with np_sub mean_loss loss_std)
            (zip_with np_add mean_loss loss_std)
            (format_label label +:+ " variance over 10 steps")],
         Returned)
    end
  end
  end.

End PlotLoss.

Arguments TensorLoss {Tensor Num} t.
Arguments NumberLoss {Tensor Num} v.
Arguments Print {Step Num} s.
Arguments Plot {Step Num} x y label.
Arguments FillBetween {Step Num} x y1 y2 label.
Arguments average_loop {Step Num} np_mean np_std npoints_to_average
  global_steps loss range mean_loss loss_std steps.
Arguments plot_loss {Step Tensor Num} cpu_numpy type_of_step type_of_loss
  np_mean np_std np_sub np_add loss_dict label npoints_to_average
  plot_variance.

(** The instance used in the examples: the states are numbers, and no
    serialized state reads as text or the other way round. *)
Definition undecodable : nat → option string := λ _, None.
Definition unloadable : string → option nat := λ _, None.

Section Store.

Set Default Proof Using "Type".

(** The state dictionaries are opaque, and so is their serialized form: what
    Python obtains when a serialized file is opened as text, and what
    [torch.load] makes of a text file, are left to the serializer ([None]
    is the exception raised). *)
Variable State : Type.
Variable text_of_ckpt : State → option string.
Variable ckpt_of_text : string → option State.

Inductive entry :=
  | Ckpt (s : State)    (* written by [torch.save] *)
  | Text (t : string)   (* written as text *)
  | Subdir.

(** What is found at the path of the directory. *)
Inductive node :=
  | Absent
  | Regular
  | Dir (d : gmap string entry).

Definition M (A : Type) : Type := node → result A * node.

Definition ret {A} (a : A) : M A := λ fs, (Ok a, fs).
Definition raise {A} (e : exn) : M A := λ fs, (Raise e, fs).
Definition bind {A B} (m : M A) (k : A → M B) : M B :=
  λ fs, match m fs with
        | (Ok a, fs') => k a fs'
        | (Raise e, fs') => (Raise e, fs')
        end.

Declare Scope M_scope.
Delimit Scope M_scope with M.
Notation "x ← y ; z" := (bind y (λ x, z))
  (at level 20, y at level 100, z at level 200, only parsing) : M_scope.
Notation "y ;; z" := (bind y (λ _, z))
  (at level 100, z at level 200, only parsing, right associativity) : M_scope.
Local Open Scope M_scope.

(** An operation inside the directory; it fails when there is none. *)
Definition in_dir {A} (f : gmap string entry → result A * gmap string entry)
  : M A :=
  λ fs, match fs with
        | Dir d => let '(r, d') := f d in (r, Dir d')
        | Absent => (Raise FileNotFoundError, fs)
        | Regular => (Raise NotADirectoryError, fs)
        end.

(** A file operation applied to the path of the directory itself. *)
Definition on_directory {A} : M A :=
  λ fs, match fs with
        | Dir _ => (Raise IsADirectoryError, fs)
        | Absent => (Raise FileNotFoundError, fs)
        | Regular => (Raise NotADirectoryError, fs)
        end.

(** A file operation on a path through the entry [n]: what is below a
    subdirectory is not tracked, and through a file or a missing entry
    there is no such path. *)
Definition through {A} (n : string) : M A :=
  in_dir (λ d, match d !! n with
               | Some Subdir => (Raise Untracked, d)
               | Some _ => (Raise NotADirectoryError, d)
               | None => (Raise FileNotFoundError, d)
               end).

(** [exists()] and [is_file()] of such a path. *)
Definition through_exists (n : string) : M bool :=
  λ fs, match fs with
        | Dir d => match d !! n with
                   | Some Subdir => (Raise Untracked, fs)
                   | _ => (Ok false, fs)
                   end
        | _ => (Ok false, fs)
        end.

(** [directory.mkdir(exist_ok=True, parents=True)] *)
Definition mkdir : M unit :=
  λ fs, match fs with
        | Absent => (Ok tt, Dir ∅)
        | Regular => (Raise FileExistsError, fs)
        | Dir _ => (Ok tt, fs)
        end.

(** [directory.is_dir()] *)
Definition is_dir : M bool :=
  λ fs, (Ok match fs with Dir _ => true | _ => false end, fs).

(** [torch.save(state_dict, directory.joinpath(p))]; its file writer
    raises [RuntimeError] whenever it cannot open the path. *)
Definition torch_save (state_dict : State) (p : string) : M unit :=
  match joinpath p with
  | Self => raise RuntimeError
  | Elsewhere => raise Untracked
  | Below n =>
      λ fs, match fs with
            | Dir d => match d !! n with
                       | Some Subdir => (Raise Untracked, fs)
                       | _ => (Raise RuntimeError, fs)
                       end
            | _ => (Raise RuntimeError, fs)
            end
  | Child n =>
      λ fs, match fs with
            | Dir _ =>
                in_dir (λ d, match d !! n with
                             | Some Subdir => (Raise RuntimeError, d)
                             | _ => (Ok tt, <[n := Ckpt state_dict]> d)
                             end) fs
            | _ => (Raise RuntimeError, fs)
            end
  end.

(** [torch.load(directory.joinpath(p))] *)
Definition torch_load (p : string) : M State :=
  match joinpath p with
  | Self => on_directory
  | Elsewhere => raise Untracked
  | Below n => through n
  | Child n =>
      in_dir (λ d, match d !! n with
                   | Some (Ckpt s) => (Ok s, d)
                   | Some (Text t) =>
                       match ckpt_of_text t with
                       | Some s => (Ok s, d)
                       | None => (Raise UnpicklingError, d)
                       end
                   | Some Subdir => (Raise IsADirectoryError, d)
                   | None => (Raise FileNotFoundError, d)
                   end)
  end.

(** [directory.joinpath(p).touch(exist_ok=True)] *)
Definition touch (p : string) : M unit :=
  match joinpath p with
  | Self => λ fs, match fs with
                  | Dir _ => (Ok tt, fs)
                  | Absent => (Raise FileNotFoundError, fs)
                  | Regular => (Raise NotADirectoryError, fs)
                  end
  | Elsewhere => raise Untracked
  | Below n => through n
  | Child n =>
      in_dir (λ d, match d !! n with
                   | Some _ => (Ok tt, d)
                   | None => (Ok tt, <[n := Text ""]> d)
                   end)
  end.

(** [with open(directory.joinpath(p)) as fp: fp.readlines()] *)
Definition open_readlines (p : string) : M (list string) :=
  match joinpath p with
  | Self => on_directory
  | Elsewhere => raise Untracked
  | Below n => through n
  | Child n =>
      in_dir (λ d, match d !! n with
                   | Some (Text t) =>
                       (Ok (Py.readlines (Py.universal_newlines t)), d)
                   | Some (Ckpt s) =>
                       match text_of_ckpt s with
                       | Some t =>
                           (Ok (Py.readlines (Py.universal_newlines t)), d)
                       | None => (Raise UnicodeDecodeError, d)
                       end
                   | Some Subdir => (Raise IsADirectoryError, d)
                   | None => (Raise FileNotFoundError, d)
                   end)
  end.

(** [with open(directory.joinpath(p), "w") as fp: fp.write(t)] *)
Definition open_write (p : string) (t : string) : M unit :=
  match joinpath p with
  | Self => on_directory
  | Elsewhere => raise Untracked
  | Below n => through n
  | Child n =>
      in_dir (λ d, match d !! n with
                   | Some Subdir => (Raise IsADirectoryError, d)
                   | _ => (Ok tt, <[n := Text t]> d)
                   end)
  end.

(** [directory.joinpath(p).exists()] *)
Definition path_exists (p : string) : M bool :=
  match joinpath p with
  | Self => is_dir
  | Elsewhere => raise Untracked
  | Below n => through_exists n
  | Child n =>
      λ fs, (Ok match fs with
                | Dir d => bool_decide (is_Some (d !! n))
                | _ => false
                end, fs)
  end.

(** [directory.joinpath(p).is_file()] *)
Definition is_file (p : string) : M bool :=
  match joinpath p with
  | Self => ret false
  | Elsewhere => raise Untracked
  | Below n => through_exists n
  | Child n =>
      λ fs, (Ok match fs with
                | Dir d => match d !! n with
                           | Some (Ckpt _) | Some (Text _) => true
                           | _ => false
                           end
                | _ => false
                end, fs)
  end.

(** [directory.joinpath(p).unlink()] *)
Definition unlink (p : string) : M unit :=
  match joinpath p with
  | Self => on_directory
  | Elsewhere => raise Untracked
  | Below n => through n
  | Child n =>
      in_dir (λ d, match d !! n with
                   | Some Subdir => (Raise IsADirectoryError, d)
                   | Some _ => (Ok tt, delete n d)
                   | None => (Raise FileNotFoundError, d)
                   end)
  end.

(** ** The three functions of the source *)

(** [get_previous_checkpoints(directory)] *)
Definition get_previous_checkpoints : M (list string) :=
  ok ← is_dir;
  if negb ok then raise AssertionError else
  touch list_path;;
  ckpt_list ← open_readlines list_path;
  ret (Py.strip <$> ckpt_list).

(** The loop [for ckpt in ...: if path.exists(): path.unlink()]. *)
Fixpoint unlink_existing (ckpts : list string) : M unit :=
  match ckpts with
  | [] => ret tt
  | ckpt :: rest =>
      found ← path_exists ckpt;
      (if found then unlink ckpt else ret tt);;
      unlink_existing rest
  end.

(** [save_checkpoint(state_dict, filepath, is_best, max_keep)]; the state
    is [filepath.parent] and [name] is [filepath.name]. *)
Definition save_checkpoint (state_dict : State) (name : string)
    (is_best : bool) (max_keep : Z) : M unit :=
  mkdir;;
  torch_save state_dict name;;
  (if is_best then torch_save state_dict best_path else ret tt);;
  previous_checkpoints ← get_previous_checkpoints;
  let previous_checkpoints :=
    if negb (Py.contains name previous_checkpoints)
    then name :: previous_checkpoints
    else previous_checkpoints in
  (if Z.of_nat (length previous_checkpoints) >? max_keep
   then unlink_existing (Py.slice_from max_keep previous_checkpoints)
   else ret tt);;
  let previous_checkpoints := Py.slice_to max_keep previous_checkpoints in
  open_write list_path (Py.join newline previous_checkpoints).

(** [load_best_checkpoint(directory)]; Python's [None] is [None]. *)
Definition load_best_checkpoint : M (option State) :=
  found ← is_file best_path;
  if negb found then ret None else
  s ← torch_load best_path;
  ret (Some s).


(** ** Vocabulary for the statements *)

(** The directory after the checkpoint, and with [is_best] the best marker,
    are written. *)
Definition written (state_dict : State) (name : string) (is_best : bool)
    (d : gmap string entry) : gmap string entry :=
  let d1 := <[name := Ckpt state_dict]> d in
  if is_best then <[best_path := Ckpt state_dict]> d1 else d1.

(** The directory after [touch] of the manifest. *)
Definition touched (d : gmap string entry) : gmap string entry :=
  match d !! list_path with
  | None => <[list_path := Text ""]> d
  | Some _ => d
  end.

(** The directory after the files named in [ckpts] are removed. *)
Fixpoint remove_all (ckpts : list string) (d : gmap string entry)
  : gmap string entry :=
  match ckpts with
  | [] => d
  | ckpt :: rest => remove_all rest (delete ckpt d)
  end.

(** The entry of the directory a manifest line names, if it names one,
    and the entries a list of lines names. *)
Definition entry_of (p : string) : option string :=
  match joinpath p with
  | Child n => Some n
  | _ => None
  end.

Definition entries_of (ckpts : list string) : list string :=
  omap entry_of ckpts.

(** A path the pruning loop gets past: an entry that is not a
    subdirectory (a file, which it removes, or nothing), or a path through
    such an entry (which does not exist). *)
Definition unlinkable (d : gmap string entry) (p : string) : Prop :=
  match joinpath p with
  | Child n | Below n => d !! n ≠ Some Subdir
  | Self | Elsewhere => False
  end.

(** A path at which the pruning loop raises, and the exception: the
    directory itself or a subdirectory, which [unlink] refuses, or a path
    this model does not follow. *)
Definition stops_at (d : gmap string entry) (p : string) (e : exn) : Prop :=
  match joinpath p with
  | Self => e = IsADirectoryError
  | Child n => d !! n = Some Subdir ∧ e = IsADirectoryError
  | Below n => d !! n = Some Subdir ∧ e = Untracked
  | Elsewhere => e = Untracked
  end.

(** The list of line 58: the name in front unless it is listed. *)
Definition updated (name : string) (previous : list string) : list string :=
  if Py.contains name previous then previous else name :: previous.

(** The first statements of [save_checkpoint], to the reading of the
    manifest (lines 51 to 56). *)
Definition save_reads (state_dict : State) (name : string) (is_best : bool)
  : M (list string) :=
  mkdir;;
  torch_save state_dict name;;
  (if is_best then torch_save state_dict best_path else ret tt);;
  get_previous_checkpoints.

(** One call of [save_checkpoint] and its arguments. *)
Record call := Call {
  c_state : State;
  c_name : string;
  c_best : bool;
  c_keep : Z
}.

(** Calls made one after the other; an exception ends the run. *)
Fixpoint save_all (calls : list call) : M unit :=
  match calls with
  | [] => ret tt
  | c :: rest =>
      save_checkpoint (c_state c) (c_name c) (c_best c) (c_keep c);;
      save_all rest
  end.

(** The state of the most recent call with [is_best]. *)
Fixpoint last_best (calls : list call) : option State :=
  match calls with
  | [] => None
  | c :: rest =>
      match last_best rest with
      | Some s => Some s
      | None => if c_best c then Some (c_state c) else None
      end
  end.

(** The manifest one call leaves, and the one a run of calls leaves. *)
Definition rotated (name : string) (max_keep : Z) (previous : list string)
  : list string :=
  Py.slice_to max_keep (updated name previous).

Fixpoint manifest_after (calls : list call) (m : list string) : list string :=
  match calls with
  | [] => m
  | c :: rest => manifest_after rest (rotated (c_name c) (c_keep c) m)
  end.

(** The directory [mkdir] leaves. *)
Definition opened (fs : node) : gmap string entry :=
  match fs with Dir d => d | _ => ∅ end.

(** A directory nobody but [save_checkpoint] has written to, with
    checkpoint names as above: no subdirectories, the manifest (when it is
    written already) a text that lists names without repetition, and a
    saved checkpoint for each name listed. *)
Record tidy (d : gmap string entry) (m : list string) : Prop := {
  tidy_flat : ∀ n, d !! n ≠ Some Subdir;
  tidy_manifest :
    d !! list_path = Some (Text (Py.join newline m))
    ∨ d !! list_path = None ∧ m = [];
  tidy_names : Forall (λ n, plain_name n = true) m;
  tidy_nodup : NoDup m;
  tidy_files : ∀ n, n ∈ m → ∃ s, d !! n = Some (Ckpt s)
}.

(** A directory that does not exist yet, or an empty one. *)
Definition fresh (fs : node) : Prop := fs = Absent ∨ fs = Dir ∅.

(** ** Lines written and read back: lemmas *)

Lemma append_nil (b : string) : "" +:+ b = b.
Proof. done. Qed.

Lemma append_cons c (a b : string) : String c a +:+ b = String c (a +:+ b).
Proof. done. Qed.

Lemma has_char_app c a b :
  Py.has_char c (a +:+ b) = Py.has_char c a || Py.has_char c b.
Proof.
  induction a as [|x a IH]; rewrite ?append_nil, ?append_cons; [done|].
  cbn [Py.has_char]. rewrite IH. by rewrite orb_assoc.
Qed.

Lemma universal_newlines_id t :
  Py.has_char Py.CR t = false → Py.universal_newlines t = t.
Proof.
  induction t as [|c t IH]; [done|].
  cbn [Py.has_char Py.universal_newlines].
  intros [Hc Ht]%orb_false_iff.
  rewrite Ascii.eqb_sym, Hc. by rewrite IH.
Qed.

Lemma readlines_line x r :
  Py.has_char Py.LF x = false →
  Py.readlines (x +:+ String Py.LF r) = (x +:+ newline) :: Py.readlines r.
Proof.
  induction x as [|c x IH];
    rewrite ?append_nil, ?append_cons; cbn [Py.has_char Py.readlines].
  - by rewrite Ascii.eqb_refl.
  - intros [Hc Hx]%orb_false_iff.
    rewrite Ascii.eqb_sym, Hc. by rewrite IH.
Qed.

Lemma readlines_last x :
  Py.has_char Py.LF x = false → x ≠ "" → Py.readlines x = [x].
Proof.
  induction x as [|c x IH]; [done|].
  cbn [Py.has_char Py.readlines].
  intros [Hc Hx]%orb_false_iff _.
  rewrite Ascii.eqb_sym, Hc.
  destruct x as [|c' x]; [done|].
  by rewrite IH.
Qed.

Lemma rstrip_snoc x c :
  Py.isspace c = true → Py.rstrip (x +:+ String c "") = Py.rstrip x.
Proof.
  intros Hc. induction x as [|a x IH];
    rewrite ?append_nil, ?append_cons; cbn [Py.rstrip].
  - by rewrite Hc.
  - by rewrite IH.
Qed.

Lemma lstrip_length t : (String.length (Py.lstrip t) ≤ String.length t)%nat.
Proof.
  induction t as [|c t IH]; cbn [Py.lstrip String.length]; [done|].
  destruct (Py.isspace c); cbn [String.length]; lia.
Qed.

Lemma rstrip_length t : (String.length (Py.rstrip t) ≤ String.length t)%nat.
Proof.
  induction t as [|c t IH]; cbn [Py.rstrip String.length]; [done|].
  destruct (Py.rstrip t); [destruct (Py.isspace c)|];
    cbn [String.length] in *; lia.
Qed.

Lemma strip_line x : Py.strip x = x → Py.strip (x +:+ newline) = x.
Proof.
  destruct x as [|c x]; [done|].
  unfold Py.strip. rewrite append_cons. cbn [Py.lstrip].
  destruct (Py.isspace c) eqn:Hc.
  - intros Heq. exfalso.
    pose proof (rstrip_length (Py.lstrip x)) as H1.
    pose proof (lstrip_length x) as H2.
    rewrite Heq in H1. cbn [String.length] in H1. lia.
  - intros Heq. rewrite <- append_cons.
    unfold newline. by rewrite rstrip_snoc.
Qed.

Lemma line_safe_spec n :
  line_safe n = true ↔
  n ≠ "" ∧ Py.has_char Py.LF n = false ∧ Py.has_char Py.CR n = false
  ∧ Py.strip n = n.
Proof.
  unfold line_safe.
  rewrite !andb_true_iff, !negb_true_iff, String.eqb_eq, String.eqb_neq.
  split; [intros [[[? ?] ?] ?]|intros (? & ? & ? & ?)]; by repeat split.
Qed.

Lemma join_cons x y l :
  Py.join newline (x :: y :: l) = x +:+ String Py.LF (Py.join newline (y :: l)).
Proof. done. Qed.

Lemma join_no_CR l :
  Forall (λ n, line_safe n = true) l →
  Py.has_char Py.CR (Py.join newline l) = false.
Proof.
  induction 1 as [|x l Hx Hl IH]; [done|].
  apply line_safe_spec in Hx as (_ & _ & Hx & _).
  destruct l as [|y l]; [done|].
  rewrite join_cons, has_char_app, Hx. simpl in *. by rewrite IH.
Qed.

(** Writing safe names one per line and reading the lines back returns
    the names. *)
Lemma manifest_lines_join l :
  Forall (λ n, line_safe n = true) l →
  manifest_lines (Py.join newline l) = l.
Proof.
  intros Hl. unfold manifest_lines.
  rewrite universal_newlines_id by by apply join_no_CR.
  induction Hl as [|x l Hx Hl IH]; [done|].
  apply line_safe_spec in Hx as (Hne & HLF & _ & Hstrip).
  destruct l as [|y l].
  - simpl. rewrite readlines_last by done. simpl. by rewrite Hstrip.
  - rewrite join_cons, readlines_line by done.
    rewrite fmap_cons, IH. by rewrite strip_line.
Qed.


(** ** Running the operations *)

Lemma joinpath_list_path : joinpath list_path = Child list_path.
Proof. by vm_compute. Qed.

Lemma joinpath_best_path : joinpath best_path = Child best_path.
Proof. by vm_compute. Qed.

Lemma plain_name_spec n :
  plain_name n = true ↔
  line_safe n = true ∧ joinpath n = Child n ∧ n ≠ list_path.
Proof.
  unfold plain_name.
  rewrite !andb_true_iff, negb_true_iff, String.eqb_neq.
  destruct (joinpath n) as [|m|m|] eqn:Hj.
  - split; [by intros [[_ ?] _]|by intros (_ & ? & _)].
  - rewrite String.eqb_eq.
    split; [by intros [[? ->] ?]|by intros (? & [= ->] & ?)].
  - split; [by intros [[_ ?] _]|by intros (_ & ? & _)].
  - split; [by intros [[_ ?] _]|by intros (_ & ? & _)].
Qed.

Lemma entry_of_child p : joinpath p = Child p → entry_of p = Some p.
Proof. unfold entry_of. by intros ->. Qed.

Lemma entries_of_children l :
  Forall (λ p, joinpath p = Child p) l → entries_of l = l.
Proof.
  unfold entries_of. induction 1 as [|p l Hp Hl IH]; [done|].
  cbn [omap list_omap]. by rewrite (entry_of_child _ Hp), IH.
Qed.

Lemma best_path_plain : plain_name best_path = true.
Proof. by vm_compute. Qed.

Lemma list_path_not_best : list_path ≠ best_path.
Proof. done. Qed.

Arguments joinpath : simpl never.

(** Reduces the matches on results and states that have become explicit. *)
Ltac step := cbv beta iota zeta delta [negb].

(** Unfolds the monad and the file operations. *)
Ltac run_unfold :=
  unfold save_checkpoint, save_reads, get_previous_checkpoints,
    load_best_checkpoint, torch_save, torch_load, touch, open_readlines,
    open_write, path_exists, is_file, unlink, mkdir, is_dir, on_directory,
    through, through_exists, in_dir, bind, ret, raise in *.

Lemma get_previous_checkpoints_missing d :
  d !! list_path = None →
  get_previous_checkpoints (Dir d)
  = (Ok [], Dir (<[list_path := Text ""]> d)).
Proof.
  intros Hd. run_unfold. rewrite joinpath_list_path. step.
  rewrite Hd. by rewrite lookup_insert_eq.
Qed.

Lemma get_previous_checkpoints_text d t :
  d !! list_path = Some (Text t) →
  get_previous_checkpoints (Dir d) = (Ok (manifest_lines t), Dir d).
Proof.
  intros Hd. run_unfold. rewrite joinpath_list_path. step.
  by rewrite !Hd.
Qed.

(** A listing that returns has touched the manifest and read a file. *)
Lemma get_previous_checkpoints_inv fs prev fs' :
  get_previous_checkpoints fs = (Ok prev, fs') →
  ∃ d, fs = Dir d ∧ fs' = Dir (touched d)
       ∧ touched d !! list_path ≠ Some Subdir
       ∧ touched d !! list_path ≠ None.
Proof.
  run_unfold. rewrite joinpath_list_path. unfold touched.
  destruct fs as [| |d] ; step; [done..|].
  destruct (d !! list_path) as [e|] eqn:Hd; step.
  - rewrite Hd. destruct e as [s|t|]; [destruct (text_of_ckpt s)|..]; step;
      try done.
    all: intros [= <- <-]; exists d; rewrite Hd; repeat split; congruence.
  - rewrite lookup_insert_eq; step. intros [= <- <-]. exists d.
    rewrite Hd, lookup_insert_eq. repeat split; congruence.
Qed.

Lemma lookup_remove_all l (d : gmap string entry) n :
  remove_all l d !! n = if decide (n ∈ l) then None else d !! n.
Proof.
  revert d. induction l as [|x l IH]; intros d; cbn [remove_all].
  - by rewrite decide_False by set_solver.
  - rewrite IH. destruct (decide (n = x)) as [->|Hne].
    + rewrite lookup_delete_eq. rewrite (decide_True _ _ (list_elem_of_here _ _)).
      by case_decide.
    + rewrite lookup_delete_ne by done.
      destruct (decide (n ∈ l)) as [Hl|Hl], (decide (n ∈ x :: l)) as [Hx|Hx];
        try done.
      * destruct Hx. by right.
      * by apply elem_of_cons in Hx as [?|?].
Qed.

(** The loop returns exactly when every path is an entry of the directory
    other than a subdirectory; the files among them are then gone. *)
Lemma unlink_existing_run l d :
  Forall (λ n, joinpath n = Child n ∧ d !! n ≠ Some Subdir) l →
  unlink_existing l (Dir d) = (Ok tt, Dir (remove_all l d)).
Proof.
  revert d. induction l as [|x l IH]; intros d Hl; [done|].
  apply Forall_cons in Hl as [[Hx Hd] Hl].
  cbn [unlink_existing remove_all]. run_unfold. rewrite Hx. step.
  assert (Forall (λ n, joinpath n = Child n ∧ delete x d !! n ≠ Some Subdir) l)
    as Hl'.
  { eapply Forall_impl; [exact Hl|]. intros n [? Hn]. split; [done|].
    rewrite lookup_delete. case_decide; done. }
  destruct (d !! x) as [e|] eqn:He.
  - rewrite bool_decide_true by eauto. step. rewrite He.
    destruct e; [..|done]; by apply IH.
  - rewrite bool_decide_false by (by intros [??]). step.
    rewrite <- (delete_id d x He) at 1. by apply IH.
Qed.

Lemma unlinkable_delete (d : gmap string entry) n p :
  d !! n ≠ Some Subdir → unlinkable (delete n d) p → unlinkable d p.
Proof.
  unfold unlinkable. intros Hn.
  destruct (joinpath p) as [|k|k|]; try done.
  all: rewrite lookup_delete; by case_decide; subst.
Qed.

(** When the loop returns it has got past every path, and the entries the
    paths name are gone. *)
Lemma unlink_existing_inv l d fs' :
  unlink_existing l (Dir d) = (Ok tt, fs') →
  fs' = Dir (remove_all (entries_of l) d) ∧ Forall (unlinkable d) l.
Proof.
  revert d. induction l as [|x l IH]; intros d; cbn [unlink_existing].
  { intros [= <-]. by split. }
  unfold bind at 1. unfold path_exists, entries_of, unlinkable at 1.
  cbn [omap list_omap]. unfold entry_of at 1.
  destruct (joinpath x) as [|n|n|] eqn:Hx; [| | |done].
  - unfold is_dir, bind, unlink. rewrite Hx. done.
  - unfold bind. destruct (d !! n) as [e|] eqn:He.
    + rewrite bool_decide_true by eauto. unfold unlink, in_dir.
      rewrite Hx, He. destruct e; [..|done].
      all: intros [-> Hl]%IH; split; [done|].
      all: apply Forall_cons; split;
        [by unfold unlinkable; rewrite Hx, He|].
      all: eapply Forall_impl; [exact Hl|]; intros p;
        apply unlinkable_delete; by rewrite He.
    + rewrite bool_decide_false by (by intros [??]). unfold ret.
      intros [-> Hl]%IH. cbn [remove_all]. rewrite (delete_id d n He).
      split; [done|].
      apply Forall_cons; split; [|done].
      unfold unlinkable. by rewrite Hx, He.
  - unfold bind, through_exists.
    destruct (d !! n) as [[]|] eqn:He; try done.
    all: unfold ret; intros [-> Hl]%IH; split; [done|].
    all: apply Forall_cons; split; [|done].
    all: unfold unlinkable; by rewrite Hx, He.
Qed.

(** ** Running [save_checkpoint] *)

Lemma slice_from_short {A} k (l : list A) :
  (Z.of_nat (length l) >? k) = false → Py.slice_from k l = [].
Proof.
  intros Hk. unfold Py.slice_from, Py.slice_index.
  apply drop_ge. destruct (Z.ltb_spec k 0); lia.
Qed.

Lemma slice_to_from {A} k (l : list A) :
  Py.slice_to k l ++ Py.slice_from k l = l.
Proof. apply take_drop. Qed.

Lemma slice_positive {A} k (l : list A) :
  0 < k →
  Py.slice_to k l = take (Z.to_nat k) l
  ∧ Py.slice_from k l = drop (Z.to_nat k) l.
Proof.
  intros Hk. unfold Py.slice_to, Py.slice_from, Py.slice_index.
  by destruct (Z.ltb_spec k 0); [lia|].
Qed.

(** [save_checkpoint] is the reading of the manifest followed by the
    rotation; the guard of the loop is redundant, since the slice is empty
    when it is false. *)
Lemma save_checkpoint_split state_dict name is_best max_keep fs :
  save_checkpoint state_dict name is_best max_keep fs =
  bind (save_reads state_dict name is_best)
    (λ previous,
       unlink_existing (Py.slice_from max_keep (updated name previous));;
       open_write list_path
         (Py.join newline (Py.slice_to max_keep (updated name previous)))) fs.
Proof.
  unfold save_checkpoint, save_reads, bind.
  destruct (mkdir fs) as [[[]|e0] fs0]; [|done].
  destruct (torch_save state_dict name fs0) as [[[]|e1] fs1]; [|done].
  destruct (_ fs1) as [[[]|e2] fs2]; [|done].
  destruct (get_previous_checkpoints fs2) as [[prev|e3] fs3]; [|done].
  unfold updated. destruct (Py.contains name prev); step.
  all: destruct (_ >? _) eqn:Hk; [done|].
  all: by rewrite (slice_from_short _ _ Hk).
Qed.

(** What a reading that returns has done; [key] is the entry the name of
    the checkpoint is. *)
Lemma save_reads_inv state_dict name is_best fs previous fs1 :
  save_reads state_dict name is_best fs = (Ok previous, fs1) →
  fs ≠ Regular
  ∧ ∃ key,
      joinpath name = Child key
      ∧ fs1 = Dir (touched (written state_dict key is_best (opened fs)))
      ∧ get_previous_checkpoints
          (Dir (written state_dict key is_best (opened fs)))
        = (Ok previous, fs1)
      ∧ touched (written state_dict key is_best (opened fs)) !! list_path
        ≠ Some Subdir.
Proof.
  unfold save_reads, bind at 1, mkdir.
  assert (∀ d,
    bind (torch_save state_dict name)
      (λ _, bind (if is_best then torch_save state_dict best_path else ret tt)
              (λ _, get_previous_checkpoints)) (Dir d) = (Ok previous, fs1) →
    ∃ key, joinpath name = Child key
    ∧ get_previous_checkpoints (Dir (written state_dict key is_best d))
      = (Ok previous, fs1)) as Hdir.
  { intros d. unfold bind at 1, torch_save, in_dir, raise.
    destruct (joinpath name) as [|n|n|] eqn:Hn; [done| | |done].
    2:{ by destruct (d !! n) as [[]|]. }
    unfold written.
    assert (∀ d', bind (if is_best then torch_save state_dict best_path
                        else ret tt) (λ _, get_previous_checkpoints) (Dir d')
                  = (Ok previous, fs1) →
                  get_previous_checkpoints
                    (Dir (if is_best then <[best_path:=Ckpt state_dict]> d'
                          else d')) = (Ok previous, fs1)) as Hbest.
    { intros d'. unfold bind. destruct is_best; [|done].
      unfold torch_save, in_dir. rewrite joinpath_best_path.
      by destruct (d' !! best_path) as [[]|]. }
    destruct (d !! n) as [[]|]; step; try done.
    all: intros ?%Hbest; by exists n. }
  destruct fs as [| |d]; [|done|].
  all: intros (key & Hn & Hget)%Hdir; cbn [opened].
  all: destruct (get_previous_checkpoints_inv _ _ _ Hget)
         as (d' & [= <-] & -> & Hsub & _).
  all: split; [done|]; exists key; by rewrite <- Hget.
Qed.

(** The reading returns on a directory whose entries in the way are files. *)
Lemma save_reads_run state_dict name is_best fs :
  fs ≠ Regular → joinpath name = Child name →
  opened fs !! name ≠ Some Subdir →
  (is_best = true → opened fs !! best_path ≠ Some Subdir) →
  save_reads state_dict name is_best fs
  = get_previous_checkpoints
      (Dir (written state_dict name is_best (opened fs))).
Proof.
  intros Hfs Hn Hname Hbest.
  assert (∀ d, d !! name ≠ Some Subdir →
               (is_best = true → d !! best_path ≠ Some Subdir) →
    bind (torch_save state_dict name)
      (λ _, bind (if is_best then torch_save state_dict best_path else ret tt)
              (λ _, get_previous_checkpoints)) (Dir d)
    = get_previous_checkpoints (Dir (written state_dict name is_best d)))
    as Hdir.
  { intros d Hd Hb. unfold bind at 1, torch_save at 1, in_dir. rewrite Hn.
    assert (∀ d', (is_best = true → d' !! best_path ≠ Some Subdir) →
              bind (if is_best then torch_save state_dict best_path
                    else ret tt) (λ _, get_previous_checkpoints) (Dir d')
              = get_previous_checkpoints
                    (Dir (if is_best then <[best_path:=Ckpt state_dict]> d'
                          else d'))) as Hbest'.
    { intros d' Hd'. unfold bind. destruct is_best; [|done].
      unfold torch_save, in_dir. rewrite joinpath_best_path.
      specialize (Hd' eq_refl). by destruct (d' !! best_path) as [[]|]. }
    unfold written.
    assert (is_best = true →
            <[name:=Ckpt state_dict]> d !! best_path ≠ Some Subdir) as Hb'.
    { intros ?. rewrite lookup_insert. case_decide; [done|by apply Hb]. }
    destruct (d !! name) as [[]|]; step; try done.
    all: by apply Hbest'. }
  unfold save_reads, bind at 1, mkdir.
  destruct fs as [| |d]; [|done|]; by apply Hdir.
Qed.

(** The rotation that follows the reading. *)
Lemma save_checkpoint_run state_dict name is_best max_keep fs previous d1 :
  save_reads state_dict name is_best fs = (Ok previous, Dir d1) →
  Forall (λ n, joinpath n = Child n ∧ d1 !! n ≠ Some Subdir)
    (Py.slice_from max_keep (updated name previous)) →
  save_checkpoint state_dict name is_best max_keep fs
  = (Ok tt,
     Dir (<[list_path :=
              Text (Py.join newline (rotated name max_keep previous))]>
            (remove_all (Py.slice_from max_keep (updated name previous))
               d1))).
Proof.
  intros Hreads Htail. rewrite save_checkpoint_split.
  unfold bind at 1. rewrite Hreads. unfold bind.
  rewrite (unlink_existing_run _ _ Htail).
  unfold open_write, in_dir. rewrite joinpath_list_path.
  apply save_reads_inv in Hreads as (_ & key & _ & [= ->] & _ & Hsub).
  rewrite lookup_remove_all.
  case_decide; [done|].
  by destruct (_ !! list_path) as [[]|].
Qed.

Lemma save_checkpoint_inv state_dict name is_best max_keep fs fs' :
  save_checkpoint state_dict name is_best max_keep fs = (Ok tt, fs') →
  ∃ previous d1,
    save_reads state_dict name is_best fs = (Ok previous, Dir d1)
    ∧ Forall (unlinkable d1)
        (Py.slice_from max_keep (updated name previous))
    ∧ fs' = Dir (<[list_path :=
                     Text (Py.join newline (rotated name max_keep previous))]>
                   (remove_all
                      (entries_of
                         (Py.slice_from max_keep (updated name previous)))
                      d1)).
Proof.
  rewrite save_checkpoint_split. unfold bind at 1.
  destruct (save_reads _ _ _ fs) as [[previous|e] fs1] eqn:Hreads; [|done].
  apply save_reads_inv in Hreads as Hinv.
  destruct Hinv as (_ & key & _ & -> & _ & _).
  unfold bind.
  destruct (unlink_existing _ _) as [[[]|e] fs2] eqn:Hloop; [|done].
  apply unlink_existing_inv in Hloop as [-> Htail].
  intros Hwrite. eexists _, _. split; [done|]. split; [done|].
  revert Hwrite. unfold open_write, in_dir. rewrite joinpath_list_path.
  by destruct (_ !! list_path) as [[]|]; intros [= <-].
Qed.

(** ** The invariant of the store *)

Lemma lookup_written state_dict name is_best (d : gmap string entry) n :
  written state_dict name is_best d !! n =
  if decide (n = name ∨ (is_best = true ∧ n = best_path))
  then Some (Ckpt state_dict) else d !! n.
Proof.
  unfold written. destruct is_best.
  - rewrite !lookup_insert.
    destruct (decide (best_path = n)) as [<-|Hb].
    { rewrite decide_True; [done|by right]. }
    destruct (decide (name = n)) as [<-|Hn].
    { rewrite decide_True; [done|by left]. }
    rewrite decide_False; [done|]. by intros [?|[_ ?]].
  - rewrite lookup_insert.
    destruct (decide (name = n)) as [<-|Hn].
    { rewrite decide_True; [done|by left]. }
    rewrite decide_False; [done|]. by intros [?|[? _]].
Qed.

Lemma lookup_touched_ne (d : gmap string entry) n :
  n ≠ list_path → touched d !! n = d !! n.
Proof.
  intros Hn. unfold touched. destruct (d !! list_path); [done|].
  by rewrite lookup_insert_ne.
Qed.

Lemma touched_flat (d : gmap string entry) :
  (∀ n, d !! n ≠ Some Subdir) → ∀ n, touched d !! n ≠ Some Subdir.
Proof.
  intros Hd n. unfold touched. destruct (d !! list_path); [done|].
  rewrite lookup_insert. by case_decide.
Qed.

Lemma written_flat state_dict name is_best (d : gmap string entry) :
  (∀ n, d !! n ≠ Some Subdir) →
  ∀ n, written state_dict name is_best d !! n ≠ Some Subdir.
Proof. intros Hd n. rewrite lookup_written. by case_decide. Qed.

Lemma elem_of_updated name previous n :
  n ∈ updated name previous ↔ n = name ∨ n ∈ previous.
Proof.
  unfold updated, Py.contains. case_bool_decide.
  - split; [by right|]. by intros [->|?].
  - apply elem_of_cons.
Qed.

Lemma updated_NoDup name previous :
  NoDup previous → NoDup (updated name previous).
Proof.
  intros Hm. unfold updated, Py.contains. case_bool_decide; [done|].
  by apply NoDup_cons.
Qed.

Lemma fresh_tidy fs : fresh fs → fs ≠ Regular ∧ tidy (opened fs) [].
Proof.
  intros [-> | ->]; (split; [done|]); cbn [opened].
  all: split; [by intros n; rewrite lookup_empty
              |by right|by constructor|by constructor|by intros n ?%elem_of_nil].
Qed.

Lemma plain_names_safe m :
  Forall (λ n, plain_name n = true) m → Forall (λ n, line_safe n = true) m.
Proof.
  intros Hm. eapply Forall_impl; [exact Hm|].
  by intros n (? & _)%plain_name_spec.
Qed.

(** On a tidy directory the listing returns the manifest. *)
Lemma tidy_get_previous_checkpoints d m :
  tidy d m →
  get_previous_checkpoints (Dir d) = (Ok m, Dir (touched d)).
Proof.
  intros [_ [Hm | [Hm ->]] Hnames _ _].
  - rewrite (get_previous_checkpoints_text _ _ Hm).
    rewrite manifest_lines_join by by apply plain_names_safe.
    unfold touched. by rewrite Hm.
  - rewrite (get_previous_checkpoints_missing _ Hm).
    unfold touched. by rewrite Hm.
Qed.

(** One call on a tidy directory returns, and leaves a tidy directory whose
    manifest is the rotated one. *)
Lemma save_checkpoint_tidy state_dict name is_best max_keep fs m :
  fs ≠ Regular → tidy (opened fs) m → plain_name name = true →
  let d1 := touched (written state_dict name is_best (opened fs)) in
  let d' := <[list_path :=
                Text (Py.join newline (rotated name max_keep m))]>
              (remove_all (Py.slice_from max_keep (updated name m)) d1) in
  save_checkpoint state_dict name is_best max_keep fs = (Ok tt, Dir d')
  ∧ tidy d' (rotated name max_keep m).
Proof.
  intros Hfs Htidy Hname d1 d'.
  apply plain_name_spec in Hname as Hname'.
  destruct Hname' as (Hsafe & Hjoin & Hlist).
  pose proof Htidy as [Hflat Hman Hnames Hnodup Hfiles].
  assert (∀ n, d1 !! n ≠ Some Subdir) as Hflat1.
  { by apply touched_flat, written_flat. }
  assert (Forall (λ n, plain_name n = true) (updated name m)) as Hupd.
  { apply Forall_forall. intros n [->|Hn]%elem_of_updated; [done|].
    by eapply Forall_forall in Hnames. }
  assert (tidy (written state_dict name is_best (opened fs)) m) as Htidy1.
  { split; [by apply written_flat| |done..|].
    - rewrite lookup_written, decide_False; [done|].
      intros [?|[_ ?]]; [done|by apply list_path_not_best].
    - intros n Hn. rewrite lookup_written. case_decide; [by eexists|].
      by apply Hfiles. }
  assert (save_reads state_dict name is_best fs = (Ok m, Dir d1)) as Hreads.
  { rewrite save_reads_run by done.
    by apply tidy_get_previous_checkpoints. }
  split.
  - apply save_checkpoint_run; [done|].
    apply Forall_forall. intros n Hn%subseteq_drop. split; [|done].
    eapply Forall_forall in Hupd; [|done].
    by apply plain_name_spec in Hupd as (_ & ? & _).
  - assert (NoDup (updated name m)) as Hnd by by apply updated_NoDup.
    rewrite <- (slice_to_from max_keep (updated name m)) in Hnd.
    apply NoDup_app in Hnd as (Hnd & Hdisj & _).
    split.
    + intros n. subst d'. rewrite lookup_insert. case_decide; [done|].
      rewrite lookup_remove_all. by case_decide.
    + left. subst d'. by rewrite lookup_insert_eq.
    + apply Forall_forall. intros n Hn%subseteq_take.
      by eapply Forall_forall in Hupd.
    + done.
    + intros n Hn. pose proof (Hdisj n Hn) as Hout.
      apply subseteq_take in Hn as Hn'.
      eapply Forall_forall in Hupd; [|done].
      apply plain_name_spec in Hupd as (_ & _ & Hnl).
      subst d'. rewrite lookup_insert_ne by done.
      rewrite lookup_remove_all, decide_False by done.
      subst d1. rewrite lookup_touched_ne by done.
      apply elem_of_updated in Hn' as [->|Hm'].
      * rewrite lookup_written, decide_True; eauto.
      * by apply (tidy_files _ _ Htidy1).
Qed.

(** ** Runs of calls *)

Lemma save_all_cons c calls fs fs1 :
  save_checkpoint (c_state c) (c_name c) (c_best c) (c_keep c) fs
  = (Ok tt, fs1) →
  save_all (c :: calls) fs = save_all calls fs1.
Proof. intros Hc. cbn [save_all]. unfold bind. by rewrite Hc. Qed.

(** A run of calls with checkpoint names on a tidy directory returns and
    leaves a tidy directory; after a call the manifest is written. *)
Lemma save_all_tidy calls fs m :
  fs ≠ Regular → tidy (opened fs) m →
  Forall (λ c, plain_name (c_name c) = true) calls →
  ∃ fs', save_all calls fs = (Ok tt, fs') ∧ fs' ≠ Regular
         ∧ tidy (opened fs') (manifest_after calls m)
         ∧ (calls ≠ [] →
            opened fs' !! list_path
            = Some (Text (Py.join newline (manifest_after calls m)))).
Proof.
  intros Hfs Htidy Hcalls. revert fs m Hfs Htidy.
  induction Hcalls as [|c calls Hc Hcalls IH]; intros fs m Hfs Htidy.
  - by exists fs.
  - destruct (save_checkpoint_tidy (c_state c) (c_name c) (c_best c)
                (c_keep c) fs m Hfs Htidy Hc) as [Hrun Htidy'].
    rewrite (save_all_cons _ _ _ _ Hrun). cbn [manifest_after].
    destruct (IH (Dir _) _ ltac:(done) Htidy') as (fs' & Hall & Hfs' & Hinv & Hman).
    exists fs'. split; [done|]. split; [done|]. split; [done|].
    intros _. destruct calls as [|c' calls]; [|by apply Hman].
    injection Hall as <-. cbn [manifest_after opened].
    by rewrite lookup_insert_eq.
Qed.

Lemma rotated_length name max_keep m :
  0 < max_keep → Z.of_nat (length (rotated name max_keep m)) ≤ max_keep.
Proof.
  intros Hk. unfold rotated.
  destruct (slice_positive max_keep (updated name m) Hk) as [-> _].
  rewrite length_take. lia.
Qed.

Lemma manifest_after_length k calls m :
  0 < k → calls ≠ [] → Forall (λ c, c_keep c = k) calls →
  Z.of_nat (length (manifest_after calls m)) ≤ k.
Proof.
  intros Hk Hne Hcalls. revert m.
  induction Hcalls as [|c calls Hc Hcalls IH]; [done|]; intros m.
  cbn [manifest_after]. destruct calls as [|c' calls].
  - cbn [manifest_after]. rewrite Hc. by apply rotated_length.
  - by apply IH.
Qed.

(** The best marker through one call that does not use its name. *)
Lemma save_checkpoint_best state_dict name is_best max_keep
    (d1 : gmap string entry) m :
  name ≠ best_path → best_path ∉ m →
  <[list_path := Text (Py.join newline (rotated name max_keep m))]>
    (remove_all (Py.slice_from max_keep (updated name m))
       (touched (written state_dict name is_best d1))) !! best_path
  = (if is_best then Some (Ckpt state_dict) else d1 !! best_path)
  ∧ best_path ∉ rotated name max_keep m.
Proof.
  intros Hname Hm.
  assert (best_path ∉ updated name m) as Hupd.
  { by intros [?|?]%elem_of_updated. }
  split.
  - rewrite lookup_insert_ne by apply list_path_not_best.
    rewrite lookup_remove_all, decide_False
      by (by intros ?%subseteq_drop).
    rewrite lookup_touched_ne by (by intros ?; apply list_path_not_best).
    rewrite lookup_written. destruct is_best.
    + rewrite decide_True; [done|by right].
    + rewrite decide_False; [done|]. by intros [?|[? _]].
  - by intros ?%subseteq_take.
Qed.

Lemma save_all_best calls fs m best :
  fs ≠ Regular → tidy (opened fs) m →
  best_path ∉ m → opened fs !! best_path = Ckpt <$> best →
  Forall (λ c, plain_name (c_name c) = true ∧ c_name c ≠ best_path) calls →
  ∃ fs', save_all calls fs = (Ok tt, fs')
         ∧ opened fs' !! best_path
           = Ckpt <$> (match last_best calls with
                       | Some s => Some s
                       | None => best
                       end).
Proof.
  intros Hfs Htidy Hm Hbest Hcalls. revert fs m best Hfs Htidy Hm Hbest.
  induction Hcalls as [|c calls [Hc Hne] Hcalls IH];
    intros fs m best Hfs Htidy Hm Hbest.
  - by exists fs.
  - destruct (save_checkpoint_tidy (c_state c) (c_name c) (c_best c)
                (c_keep c) fs m Hfs Htidy Hc) as [Hrun Htidy'].
    destruct (save_checkpoint_best (c_state c) (c_name c) (c_best c)
                (c_keep c) (opened fs) m Hne Hm) as [Hlook Hm'].
    rewrite (save_all_cons _ _ _ _ Hrun).
    destruct (IH (Dir _) _ (if c_best c then Some (c_state c) else best)
                ltac:(done) Htidy' Hm') as (fs' & Hall & Hbest').
    { cbn [opened]. rewrite Hlook, Hbest. by destruct (c_best c). }
    exists fs'. split; [done|]. rewrite Hbest'. cbn [last_best].
    destruct (last_best calls); [done|]. by destruct (c_best c).
Qed.

Lemma load_best_checkpoint_ckpt d s :
  d !! best_path = Some (Ckpt s) →
  load_best_checkpoint (Dir d) = (Ok (Some s), Dir d).
Proof.
  intros Hd. run_unfold. rewrite joinpath_best_path. step.
  by rewrite !Hd.
Qed.

Lemma is_file_ckpt d n s :
  joinpath n = Child n → d !! n = Some (Ckpt s) →
  is_file n (Dir d) = (Ok true, Dir d).
Proof. intros Hn Hd. unfold is_file. by rewrite Hn, Hd. Qed.

(** ** Properties of the checkpoint store *)

Lemma save_reads_tidy state_dict name is_best fs m :
  fs ≠ Regular → tidy (opened fs) m → plain_name name = true →
  save_reads state_dict name is_best fs
  = (Ok m, Dir (touched (written state_dict name is_best (opened fs)))).
Proof.
  intros Hfs Htidy (Hsafe & Hjoin & Hlist)%plain_name_spec.
  pose proof Htidy as [Hflat Hman Hnames Hnodup Hfiles].
  rewrite save_reads_run by done.
  apply tidy_get_previous_checkpoints.
  split; [by apply written_flat| |done..|].
  - rewrite lookup_written, decide_False; [done|].
    intros [?|[_ ?]]; [done|by apply list_path_not_best].
  - intros n Hn. rewrite lookup_written. case_decide; [by eexists|].
    by apply Hfiles.
Qed.

Lemma rotated_head name max_keep m :
  0 < max_keep → name ∉ m ∨ head m = Some name →
  head (rotated name max_keep m) = Some name.
Proof.
  intros Hk Hm. unfold rotated.
  destruct (slice_positive max_keep (updated name m) Hk) as [-> _].
  destruct (Z.to_nat max_keep) as [|k] eqn:Hk'; [lia|].
  unfold updated, Py.contains. destruct Hm as [Hm|Hm].
  - by rewrite bool_decide_false.
  - apply head_Some in Hm as [m' ->].
    by rewrite bool_decide_true by by left.
Qed.

Lemma rotated_fixed name max_keep m :
  name ∈ m → Z.of_nat (length m) ≤ max_keep → rotated name max_keep m = m.
Proof.
  intros Hm Hk. unfold rotated, updated, Py.contains.
  rewrite bool_decide_true by done.
  unfold Py.slice_to, Py.slice_index.
  apply take_ge. destruct (Z.ltb_spec max_keep 0); lia.
Qed.

Lemma rotated_twice name max_keep m :
  0 < max_keep →
  name ∈ rotated name max_keep (rotated name max_keep m).
Proof.
  intros Hk. set (m1 := rotated name max_keep m).
  destruct (decide (name ∈ m1)) as [Hin|Hout].
  - rewrite rotated_fixed; [done..|]. by apply rotated_length.
  - apply head_Some_elem_of, rotated_head; [done|by left].
Qed.

Lemma tidy_dir fs m :
  tidy (opened fs) m → is_Some (opened fs !! list_path) →
  ∃ d, fs = Dir d
       ∧ get_previous_checkpoints (Dir d) = (Ok m, Dir d)
       ∧ ∀ n, n ∈ m → is_file n (Dir d) = (Ok true, Dir d).
Proof.
  intros Htidy [e He].
  destruct fs as [| |d]; cbn [opened] in *;
    [by rewrite lookup_empty in He..|].
  exists d. split; [done|]. split.
  - rewrite (tidy_get_previous_checkpoints _ _ Htidy).
    unfold touched. by rewrite He.
  - intros n Hn. destruct (tidy_files _ _ Htidy n Hn) as [s Hs].
    eapply is_file_ckpt; [|done].
    pose proof (tidy_names _ _ Htidy) as Hnames.
    eapply Forall_forall in Hnames; [|done].
    by apply plain_name_spec in Hnames as (_ & ? & _).
Qed.

(** C1 (as amended).  Calls of [save_checkpoint] with one positive
    [max_keep = k], made one after the other on a directory that starts out
    missing or empty, with checkpoint names that are entries of the
    directory, hold no line break and no surrounding whitespace and differ
    from [latest_checkpoint]: every call returns, and after the last one
    (so after each one) [get_previous_checkpoints] lists at most [k] names,
    each the name of an existing file. *)
Theorem save_all_manifest_bounded k calls fs :
  0 < k → fresh fs → calls ≠ [] →
  Forall (λ c, c_keep c = k ∧ plain_name (c_name c) = true) calls →
  ∃ d m,
    save_all calls fs = (Ok tt, Dir d)
    ∧ get_previous_checkpoints (Dir d) = (Ok m, Dir d)
    ∧ Z.of_nat (length m) ≤ k
    ∧ ∀ n, n ∈ m → is_file n (Dir d) = (Ok true, Dir d).
Proof.
  intros Hk [Hfs Htidy]%fresh_tidy Hne Hcalls.
  destruct (save_all_tidy calls fs [] Hfs Htidy)
    as (fs' & Hall & _ & Htidy' & Hman).
  { eapply Forall_impl; [exact Hcalls|]. by intros c [_ ?]. }
  destruct (tidy_dir fs' _ Htidy') as (d & -> & Hget & Hfiles).
  { rewrite Hman by done. by eexists. }
  exists d, (manifest_after calls []).
  split; [done|]. split; [done|]. split; [|done].
  apply manifest_after_length; [done..|].
  eapply Forall_impl; [exact Hcalls|]. by intros c [? _].
Qed.

(** C2 (as amended).  [save_checkpoint] puts the name in front of the
    manifest it has read if and only if the name occurs nowhere in that
    manifest: when the call returns, the manifest file holds the first
    [max_keep] names of the manifest with the name in front if the name was
    not listed, and of the manifest as it was if the name was listed, at
    whatever position. *)
Theorem save_checkpoint_prepends state_dict name is_best max_keep fs
    previous fs1 fs' :
  save_reads state_dict name is_best fs = (Ok previous, fs1) →
  save_checkpoint state_dict name is_best max_keep fs = (Ok tt, fs') →
  (name ∉ previous →
   opened fs' !! list_path
   = Some (Text (Py.join newline
                   (Py.slice_to max_keep (name :: previous)))))
  ∧ (name ∈ previous →
     opened fs' !! list_path
     = Some (Text (Py.join newline (Py.slice_to max_keep previous)))).
Proof.
  intros Hreads (prev' & d1 & Hreads' & _ & ->)%save_checkpoint_inv.
  rewrite Hreads in Hreads'. injection Hreads' as <- ->.
  cbn [opened]. rewrite lookup_insert_eq.
  unfold rotated, updated, Py.contains.
  split; intros Hin; by rewrite ?bool_decide_true, ?bool_decide_false by done.
Qed.

Lemma rotated_listed name max_keep m :
  0 < max_keep → name ∈ m →
  rotated name max_keep m = take (Z.to_nat max_keep) m.
Proof.
  intros Hk Hm. unfold rotated.
  destruct (slice_positive max_keep (updated name m) Hk) as [-> _].
  unfold updated, Py.contains. by rewrite bool_decide_true.
Qed.

(** C3 (as amended).  On a directory written by [save_checkpoint] alone,
    two calls in a row with the same checkpoint name and the same positive
    [max_keep] leave the name exactly once in the manifest (it is listed,
    and no name is listed twice).  When the manifest listed the name among
    its first [max_keep] entries, the manifest after the two calls is those
    entries, the name at the position it had; otherwise, and when the
    manifest listed the name first, the name is in first position. *)
Theorem save_checkpoint_twice calls fs0 fs s1 s2 b1 b2 name k :
  0 < k → fresh fs0 →
  Forall (λ c, plain_name (c_name c) = true) calls →
  save_all calls fs0 = (Ok tt, fs) →
  plain_name name = true →
  ∃ m fs1 d2 m2,
    save_reads s1 name b1 fs = (Ok m, fs1)
    ∧ save_all [Call s1 name b1 k; Call s2 name b2 k] fs = (Ok tt, Dir d2)
    ∧ get_previous_checkpoints (Dir d2) = (Ok m2, Dir d2)
    ∧ name ∈ m2 ∧ NoDup m2
    ∧ (name ∉ m ∨ head m = Some name → head m2 = Some name)
    ∧ (name ∈ take (Z.to_nat k) m → m2 = take (Z.to_nat k) m)
    ∧ (name ∉ take (Z.to_nat k) m → head m2 = Some name).
Proof.
  intros Hk [Hfs0 Htidy0]%fresh_tidy Hcalls Hall Hname.
  destruct (save_all_tidy calls fs0 [] Hfs0 Htidy0 Hcalls)
    as (fs_ & Hall_ & Hfs & Htidy & _).
  rewrite Hall in Hall_. injection Hall_ as <-.
  set (m := manifest_after calls []) in *.
  destruct (save_checkpoint_tidy s1 name b1 k fs m Hfs Htidy Hname)
    as [Hrun1 Htidy1].
  destruct (save_checkpoint_tidy s2 name b2 k (Dir _) _ ltac:(done)
              Htidy1 Hname) as [Hrun2 Htidy2].
  match type of Hrun2 with _ = (_, Dir ?d) => set (d2 := d) in * end.
  exists m, (Dir (touched (written s1 name b1 (opened fs)))), d2,
    (rotated name k (rotated name k m)).
  split; [by apply save_reads_tidy|]. split.
  { rewrite (save_all_cons (Call s1 name b1 k) _ _ _ Hrun1).
    by rewrite (save_all_cons (Call s2 name b2 k) _ _ _ Hrun2). }
  split.
  { rewrite (tidy_get_previous_checkpoints _ _ Htidy2).
    unfold touched, d2. by rewrite lookup_insert_eq. }
  split; [by apply rotated_twice|].
  split; [by apply (tidy_nodup _ _ Htidy2)|].
  split; [|split].
  - intros Hm. apply rotated_head; [done|]. right. by apply rotated_head.
  - intros Hin. apply subseteq_take in Hin as Hm.
    rewrite (rotated_listed name k m) by done.
    apply rotated_fixed; [done|]. rewrite length_take. lia.
  - intros Hout. destruct (decide (name ∈ m)) as [Hm|Hm].
    + rewrite (rotated_listed name k m) by done.
      apply rotated_head; [done|by left].
    + apply rotated_head; [done|]. right. apply rotated_head; [done|by left].
Qed.

(** C4 (as amended).  With a positive [max_keep], when every manifest
    entry beyond the first [max_keep] names an entry of the directory that
    is not a subdirectory (a file, or nothing at all), [save_checkpoint]
    returns without an exception, whether those files exist or not, and
    afterwards none of those names is in the directory, except
    [latest_checkpoint]: the manifest file is written again after the
    pruning. *)
Theorem save_checkpoint_prunes state_dict name is_best max_keep fs
    previous d1 :
  0 < max_keep →
  save_reads state_dict name is_best fs = (Ok previous, Dir d1) →
  Forall (λ n, joinpath n = Child n ∧ d1 !! n ≠ Some Subdir)
    (drop (Z.to_nat max_keep) (updated name previous)) →
  ∃ d',
    save_checkpoint state_dict name is_best max_keep fs = (Ok tt, Dir d')
    ∧ (∀ n, n ∈ drop (Z.to_nat max_keep) (updated name previous) →
            n ≠ list_path → d' !! n = None)
    ∧ is_Some (d' !! list_path).
Proof.
  intros Hk Hreads Htail.
  destruct (slice_positive max_keep (updated name previous) Hk) as [_ Hfrom].
  rewrite <- Hfrom in *.
  eexists. split; [by apply save_checkpoint_run|]. split.
  - intros n Hn Hne. rewrite lookup_insert_ne by done.
    by rewrite lookup_remove_all, decide_True.
  - by rewrite lookup_insert_eq.
Qed.

(** C5.  On a path that is not a directory [get_previous_checkpoints]
    raises the assertion error and nothing else happens: no manifest is
    touched, and no list is returned. *)
Theorem get_previous_checkpoints_asserts fs :
  is_dir fs = (Ok false, fs) →
  get_previous_checkpoints fs = (Raise AssertionError, fs).
Proof. by destruct fs. Qed.

(** C6.  In a directory without the file [latest_checkpoint],
    [get_previous_checkpoints] creates the file empty, returns the empty
    list and raises nothing. *)
Theorem get_previous_checkpoints_creates d :
  d !! list_path = None →
  get_previous_checkpoints (Dir d)
  = (Ok [], Dir (<[list_path := Text ""]> d)).
Proof. apply get_previous_checkpoints_missing. Qed.

(** C7.  [load_best_checkpoint] returns [None], and no exception, when
    [best.ckpt] is not a file of the directory; it returns the state saved
    in [best.ckpt] when that is a saved checkpoint; it leaves the directory
    as it is, and its result does not depend on the manifest file. *)
Theorem load_best_checkpoint_spec fs :
  (is_file best_path fs = (Ok false, fs) →
   load_best_checkpoint fs = (Ok None, fs))
  ∧ (∀ d s, fs = Dir d → d !! best_path = Some (Ckpt s) →
            load_best_checkpoint fs = (Ok (Some s), fs))
  ∧ (load_best_checkpoint fs).2 = fs
  ∧ (∀ d e, fs = Dir d →
            (load_best_checkpoint (Dir (<[list_path := e]> d))).1
            = (load_best_checkpoint fs).1
            ∧ (load_best_checkpoint (Dir (delete list_path d))).1
              = (load_best_checkpoint fs).1).
Proof.
  split; [|split; [|split]].
  - unfold load_best_checkpoint, bind. by intros ->.
  - intros d s -> Hd. by apply load_best_checkpoint_ckpt.
  - run_unfold. rewrite joinpath_best_path. step.
    destruct fs as [| |d]; [done..|]. step.
    destruct (d !! best_path) as [[s|t|]|] eqn:Hd; step; rewrite ?Hd; step;
      try done.
    by destruct (ckpt_of_text t).
  - intros d e ->. run_unfold. rewrite joinpath_best_path.
    destruct (d !! best_path) as [[s|t|]|] eqn:Hd.
    all: repeat (progress
           (step;
            rewrite ?lookup_insert_ne, ?lookup_delete_ne
              by apply list_path_not_best;
            rewrite ?Hd)).
    all: try done.
    by destruct (ckpt_of_text t).
Qed.

(** C8 (as amended).  After calls of [save_checkpoint] on a directory that
    starts out missing or empty, with checkpoint names as in C1 none of
    which is [best.ckpt], and with any [max_keep]: if some call had
    [is_best], [load_best_checkpoint] returns the state of the most recent
    such call. *)
Theorem load_best_checkpoint_latest calls fs s :
  fresh fs →
  Forall (λ c, plain_name (c_name c) = true ∧ c_name c ≠ best_path) calls →
  last_best calls = Some s →
  ∃ d, save_all calls fs = (Ok tt, Dir d)
       ∧ load_best_checkpoint (Dir d) = (Ok (Some s), Dir d).
Proof.
  intros Hfresh Hcalls Hlast.
  pose proof Hfresh as [Hfs Htidy]%fresh_tidy.
  destruct (save_all_best calls fs [] None Hfs Htidy) as (fs' & Hall & Hbest);
    [by intros ?%elem_of_nil| |done|].
  { by destruct Hfresh as [-> | ->]. }
  rewrite Hlast in Hbest.
  destruct fs' as [| |d]; cbn [opened] in Hbest;
    [by rewrite lookup_empty in Hbest..|].
  exists d. split; [done|]. by apply load_best_checkpoint_ckpt.
Qed.

(** C9 (as amended).  [save_checkpoint] removes nothing but the entries
    that the manifest lines beyond the first [max_keep] of the updated
    manifest name, after pathlib has dropped their empty and [.] components
    (so that [./a] and [a/] name the entry [a]): when it returns, every
    entry of the directory that no such line names is still there. *)
Theorem save_checkpoint_frame state_dict name is_best max_keep fs
    previous fs1 fs' :
  save_reads state_dict name is_best fs = (Ok previous, fs1) →
  save_checkpoint state_dict name is_best max_keep fs = (Ok tt, fs') →
  ∀ n, is_Some (opened fs !! n) →
       n ∉ entries_of (Py.slice_from max_keep (updated name previous)) →
       is_Some (opened fs' !! n).
Proof.
  intros Hreads (prev' & d1 & Hreads' & _ & ->)%save_checkpoint_inv n Hn Hout.
  rewrite Hreads in Hreads'. injection Hreads' as <- ->.
  apply save_reads_inv in Hreads as (_ & key & _ & [= ->] & _).
  cbn [opened]. rewrite lookup_insert. case_decide; [done|].
  rewrite lookup_remove_all, decide_False by done.
  rewrite lookup_touched_ne by done.
  rewrite lookup_written. by case_decide.
Qed.

(** C10.  The reserved names get no special treatment: a checkpoint saved
    under the name [best.ckpt] enters the manifest, and the next call with
    [max_keep = 1] removes the file [best.ckpt]; [load_best_checkpoint] then
    returns [None] although an earlier call had [is_best]. *)
Theorem best_marker_rotated_out (s1 s2 s3 : State) :
  let calls := [Call s1 "a" true 1; Call s2 best_path false 1;
                Call s3 "c" false 1] in
  ∃ d2 d3,
    save_all (take 2 calls) Absent = (Ok tt, Dir d2)
    ∧ get_previous_checkpoints (Dir d2) = (Ok [best_path], Dir d2)
    ∧ is_file best_path (Dir d2) = (Ok true, Dir d2)
    ∧ save_all calls Absent = (Ok tt, Dir d3)
    ∧ last_best calls = Some s1
    ∧ is_file best_path (Dir d3) = (Ok false, Dir d3)
    ∧ load_best_checkpoint (Dir d3) = (Ok None, Dir d3).
Proof.
  intros calls.
  destruct (save_all (take 2 calls) Absent) as [r2 fs2] eqn:H2.
  destruct (save_all calls Absent) as [r3 fs3] eqn:H3.
  vm_compute in H2, H3.
  injection H2 as <- <-. injection H3 as <- <-.
  eexists _, _. repeat split; by vm_compute.
Qed.

(** ** More on the lines of the manifest *)

Lemma has_char_lstrip c t :
  Py.has_char c (Py.lstrip t) = true → Py.has_char c t = true.
Proof.
  induction t as [|a t IH]; [done|]. cbn [Py.lstrip Py.has_char].
  destruct (Py.isspace a); [|done].
  intros Ht%IH. rewrite Ht. apply orb_true_r.
Qed.

Lemma rstrip_cons c r :
  Py.rstrip (String c r) =
  match Py.rstrip r with
  | EmptyString => if Py.isspace c then EmptyString else String c EmptyString
  | r' => String c r'
  end.
Proof. done. Qed.

Lemma has_char_rstrip c t :
  Py.has_char c (Py.rstrip t) = true → Py.has_char c t = true.
Proof.
  induction t as [|a t IH]; [done|]. rewrite rstrip_cons.
  cbn [Py.has_char]. destruct (Py.rstrip t) as [|b r] eqn:Hr.
  - destruct (Py.isspace a); [done|]. cbn [Py.has_char].
    rewrite orb_false_r. by intros ->.
  - cbn [Py.has_char] in *. intros [->|Hc]%orb_true_iff; [done|].
    rewrite IH by done. apply orb_true_r.
Qed.

Lemma has_char_strip c t :
  Py.has_char c t = false → Py.has_char c (Py.strip t) = false.
Proof.
  intros Ht. unfold Py.strip.
  destruct (Py.has_char c (Py.rstrip (Py.lstrip t))) eqn:Hc; [|done].
  apply has_char_rstrip, has_char_lstrip in Hc. congruence.
Qed.

Lemma isspace_LF : Py.isspace Py.LF = true.
Proof. done. Qed.

(** The line break that ends a line goes with the whitespace. *)
Lemma strip_line_end s : Py.strip (s +:+ newline) = Py.strip s.
Proof.
  unfold Py.strip.
  induction s as [|c s IH]; rewrite ?append_nil, ?append_cons; [done|].
  cbn [Py.lstrip]. destruct (Py.isspace c); [done|].
  rewrite <- append_cons. unfold newline. by rewrite rstrip_snoc.
Qed.

Lemma rstrip_rstrip t : Py.rstrip (Py.rstrip t) = Py.rstrip t.
Proof.
  induction t as [|c t IH]; [done|]. rewrite rstrip_cons.
  destruct (Py.rstrip t) as [|a r] eqn:Hr.
  - destruct (Py.isspace c) eqn:Hc; [done|].
    rewrite rstrip_cons. cbn [Py.rstrip]. by rewrite Hc.
  - rewrite rstrip_cons. by rewrite IH.
Qed.

Lemma lstrip_rstrip_lstrip t :
  Py.lstrip (Py.rstrip (Py.lstrip t)) = Py.rstrip (Py.lstrip t).
Proof.
  induction t as [|c t IH]; [done|]. cbn [Py.lstrip].
  destruct (Py.isspace c) eqn:Hc; [done|].
  rewrite rstrip_cons. destruct (Py.rstrip t).
  - rewrite Hc. cbn [Py.lstrip]. by rewrite Hc.
  - cbn [Py.lstrip]. by rewrite Hc.
Qed.

Lemma strip_strip t : Py.strip (Py.strip t) = Py.strip t.
Proof.
  unfold Py.strip. by rewrite lstrip_rstrip_lstrip, rstrip_rstrip.
Qed.

Lemma universal_newlines_no_CR t :
  Py.has_char Py.CR (Py.universal_newlines t) = false.
Proof.
  assert (∀ n t, (String.length t ≤ n)%nat →
                 Py.has_char Py.CR (Py.universal_newlines t) = false) as H.
  { clear t. induction n as [|n IH]; intros [|c t] Hlen;
      cbn [String.length] in Hlen; try done; try lia.
    cbn [Py.universal_newlines].
    destruct (Ascii.eqb c Py.CR) eqn:Hc.
    - destruct t as [|c' t]; [done|]. cbn [String.length] in Hlen.
      destruct (Ascii.eqb c' Py.LF); cbn [Py.has_char].
      + rewrite IH by lia. done.
      + rewrite IH by (cbn [String.length]; lia). done.
    - cbn [Py.has_char]. rewrite Ascii.eqb_sym, Hc.
      by rewrite IH by lia. }
  by apply (H (String.length t)).
Qed.

(** A line of [readlines] holds no line break, except for the one that
    may end it, and no character the text does not hold. *)
Lemma readlines_shape t x :
  x ∈ Py.readlines t →
  ∃ s, Py.has_char Py.LF s = false
       ∧ (x = s ∨ x = s +:+ newline)
       ∧ ∀ c, Py.has_char c s = true → Py.has_char c t = true.
Proof.
  revert x. induction t as [|c t IH]; intros x; cbn [Py.readlines].
  { by intros ?%elem_of_nil. }
  destruct (Ascii.eqb c Py.LF) eqn:Hc.
  - intros [->|Hx]%elem_of_cons.
    + exists "". split; [done|]. split; [|done].
      right. apply Ascii.eqb_eq in Hc as ->. done.
    + destruct (IH x Hx) as (s & Hs & Hshape & Hin).
      exists s. split; [done|]. split; [done|].
      intros a Ha. cbn [Py.has_char]. rewrite (Hin a Ha). apply orb_true_r.
  - destruct (Py.readlines t) as [|l ls] eqn:Hl.
    + intros ->%list_elem_of_singleton.
      exists (String c ""). cbn [Py.has_char].
      rewrite Ascii.eqb_sym, Hc. split; [done|]. split; [by left|].
      intros a. rewrite orb_false_r. intros ->. done.
    + intros [->|Hx]%elem_of_cons.
      * destruct (IH l ltac:(by left)) as (s & Hs & Hshape & Hin).
        exists (String c s). cbn [Py.has_char].
        rewrite Ascii.eqb_sym, Hc, Hs. split; [done|]. split.
        { destruct Hshape as [->| ->]; [by left|by right]. }
        intros a [->|Ha]%orb_true_iff; [done|].
        rewrite (Hin a Ha). apply orb_true_r.
      * destruct (IH x ltac:(by right)) as (s & Hs & Hshape & Hin).
        exists s. split; [done|]. split; [done|].
        intros a Ha. cbn [Py.has_char]. rewrite (Hin a Ha). apply orb_true_r.
Qed.

(** The names made of a text have nothing left for [strip] to remove and
    hold no line break, whatever the text is. *)
Lemma manifest_lines_clean t n :
  n ∈ manifest_lines t →
  Py.strip n = n
  ∧ Py.has_char Py.LF n = false ∧ Py.has_char Py.CR n = false.
Proof.
  unfold manifest_lines.
  intros (x & -> & Hx)%list_elem_of_fmap.
  apply readlines_shape in Hx as (s & Hs & Hshape & Hin).
  assert (Py.strip x = Py.strip s) as ->.
  { destruct Hshape as [->| ->]; [done|apply strip_line_end]. }
  split; [apply strip_strip|]. split; [by apply has_char_strip|].
  apply has_char_strip.
  destruct (Py.has_char Py.CR s) eqn:HCR; [|done].
  apply Hin in HCR. by rewrite universal_newlines_no_CR in HCR.
Qed.

(** ** More on the checkpoint store *)

Lemma get_previous_checkpoints_lines fs l fs' :
  get_previous_checkpoints fs = (Ok l, fs') →
  ∃ t, l = manifest_lines t
       ∧ (opened fs' !! list_path = Some (Text t)
          ∨ ∃ s, opened fs' !! list_path = Some (Ckpt s)
                 ∧ text_of_ckpt s = Some t).
Proof.
  intros Hget.
  destruct (get_previous_checkpoints_inv _ _ _ Hget) as (d & -> & -> & _).
  revert Hget. unfold touched. cbn [opened].
  destruct (d !! list_path) as [e|] eqn:Hd.
  - run_unfold. rewrite joinpath_list_path.
    repeat (progress (step; rewrite ?Hd)).
    destruct e as [s|t|]; [destruct (text_of_ckpt s) as [t|] eqn:Hs|..];
      step; try done.
    all: intros [= <-]; exists t; split; [done|]; eauto.
  - rewrite (get_previous_checkpoints_missing _ Hd). intros [= <-].
    exists "". rewrite lookup_insert_eq. split; [done|by left].
Qed.

(** X1.  Writing a list of names to the manifest as [save_checkpoint] does
    and listing the directory gives the names back, when no name is empty,
    holds a line break or has surrounding whitespace. *)
Theorem manifest_write_read d l :
  d !! list_path ≠ Some Subdir →
  Forall (λ n, line_safe n = true) l →
  bind (open_write list_path (Py.join newline l))
    (λ _, get_previous_checkpoints) (Dir d)
  = (Ok l, Dir (<[list_path := Text (Py.join newline l)]> d)).
Proof.
  intros Hd Hl. unfold bind at 1, open_write, in_dir.
  rewrite joinpath_list_path.
  assert (get_previous_checkpoints
            (Dir (<[list_path := Text (Py.join newline l)]> d))
          = (Ok l, Dir (<[list_path := Text (Py.join newline l)]> d))) as Hget.
  { rewrite (get_previous_checkpoints_text _ (Py.join newline l))
      by apply lookup_insert_eq.
    by rewrite manifest_lines_join. }
  by destruct (d !! list_path) as [[]|].
Qed.

(** X2.  Every name [get_previous_checkpoints] returns has nothing left
    for [strip] to remove and holds no line break, whatever the manifest
    file holds. *)
Theorem get_previous_checkpoints_clean fs l fs' n :
  get_previous_checkpoints fs = (Ok l, fs') → n ∈ l →
  Py.strip n = n
  ∧ Py.has_char Py.LF n = false ∧ Py.has_char Py.CR n = false.
Proof.
  intros (t & -> & _)%get_previous_checkpoints_lines.
  apply manifest_lines_clean.
Qed.

(** X3.  Listing is stable: when [get_previous_checkpoints] has returned,
    a second call returns the same names and changes nothing. *)
Theorem get_previous_checkpoints_again fs l fs' :
  get_previous_checkpoints fs = (Ok l, fs') →
  get_previous_checkpoints fs' = (Ok l, fs').
Proof.
  intros Hget.
  destruct (get_previous_checkpoints_inv _ _ _ Hget) as (d & -> & -> & _).
  apply get_previous_checkpoints_lines in Hget as (t & -> & Hfile).
  cbn [opened] in Hfile. destruct Hfile as [Ht|(s & Hs & Hdec)].
  - by apply get_previous_checkpoints_text.
  - run_unfold. rewrite joinpath_list_path.
    repeat (progress (step; rewrite ?Hs)). by rewrite Hdec.
Qed.

(** A property that every call keeps is kept by a run of calls. *)
Lemma save_all_invariant (P : gmap string entry → list string → Prop)
    (Q : call → Prop) calls fs m :
  fs ≠ Regular → tidy (opened fs) m → P (opened fs) m →
  Forall (λ c, plain_name (c_name c) = true ∧ Q c) calls →
  (∀ c d m, Q c → plain_name (c_name c) = true → tidy d m → P d m →
     P (<[list_path :=
            Text (Py.join newline (rotated (c_name c) (c_keep c) m))]>
          (remove_all (Py.slice_from (c_keep c) (updated (c_name c) m))
             (touched (written (c_state c) (c_name c) (c_best c) d))))
       (rotated (c_name c) (c_keep c) m)) →
  ∃ fs', save_all calls fs = (Ok tt, fs') ∧ fs' ≠ Regular
         ∧ tidy (opened fs') (manifest_after calls m)
         ∧ P (opened fs') (manifest_after calls m).
Proof.
  intros Hfs Htidy HP Hcalls Hstep. revert fs m Hfs Htidy HP.
  induction Hcalls as [|c calls [Hc HQ] Hcalls IH]; intros fs m Hfs Htidy HP.
  - by exists fs.
  - destruct (save_checkpoint_tidy (c_state c) (c_name c) (c_best c)
                (c_keep c) fs m Hfs Htidy Hc) as [Hrun Htidy'].
    rewrite (save_all_cons _ _ _ _ Hrun). cbn [manifest_after].
    apply (IH (Dir _)); [done|done|]. by apply Hstep.
Qed.

Lemma take_app_take {A} k (l m : list A) :
  take k (l ++ take k m) = take k (l ++ m).
Proof.
  rewrite !take_app, take_take. do 2 f_equal. lia.
Qed.

(** With names saved for the first time the manifest is the names in
    reverse, cut to [k]. *)
Lemma manifest_after_distinct k calls m :
  0 < k → Forall (λ c, c_keep c = k) calls →
  NoDup (c_name <$> calls) → (∀ c, c ∈ calls → c_name c ∉ m) →
  (length m ≤ Z.to_nat k)%nat →
  manifest_after calls m
  = take (Z.to_nat k) (reverse (c_name <$> calls) ++ m).
Proof.
  intros Hk Hcalls. revert m.
  induction Hcalls as [|c calls Hc Hcalls IH]; intros m Hnd Hm Hlen.
  - cbn. by rewrite take_ge.
  - cbn [manifest_after fmap list_fmap]. rewrite fmap_cons in Hnd.
    apply NoDup_cons in Hnd as [Hc' Hnd].
    assert (rotated (c_name c) (c_keep c) m
            = take (Z.to_nat k) (c_name c :: m)) as ->.
    { unfold rotated. rewrite Hc.
      destruct (slice_positive k (updated (c_name c) m) Hk) as [-> _].
      unfold updated, Py.contains.
      rewrite bool_decide_false; [done|]. apply Hm. by left. }
    rewrite IH; [|done| |rewrite length_take; lia].
    + rewrite take_app_take, reverse_cons. by rewrite <- app_assoc.
    + intros c' Hc'' [Heq|Hin]%subseteq_take%elem_of_cons.
      * apply Hc'. rewrite <- Heq. apply list_elem_of_fmap. eauto.
      * eapply Hm; [|done]. by right.
Qed.

(** X4.  With one positive [max_keep = k] and checkpoint names that are
    all different, the manifest lists the last [k] names saved, the most
    recent first. *)
Theorem manifest_most_recent_first k calls fs :
  0 < k → fresh fs → calls ≠ [] →
  Forall (λ c, c_keep c = k ∧ plain_name (c_name c) = true) calls →
  NoDup (c_name <$> calls) →
  ∃ d, save_all calls fs = (Ok tt, Dir d)
       ∧ get_previous_checkpoints (Dir d)
         = (Ok (take (Z.to_nat k) (reverse (c_name <$> calls))), Dir d).
Proof.
  intros Hk [Hfs Htidy]%fresh_tidy Hne Hcalls Hnd.
  destruct (save_all_tidy calls fs [] Hfs Htidy)
    as (fs' & Hall & _ & Htidy' & Hman).
  { eapply Forall_impl; [exact Hcalls|]. by intros c [_ ?]. }
  destruct (tidy_dir fs' _ Htidy') as (d & -> & Hget & _).
  { rewrite Hman by done. by eexists. }
  exists d. split; [done|]. rewrite Hget.
  rewrite (manifest_after_distinct k); [by rewrite app_nil_r|done| |done| |].
  - eapply Forall_impl; [exact Hcalls|]. by intros c [? _].
  - by intros c _ ?%elem_of_nil.
  - cbn. lia.
Qed.

(** X5.  Nothing is left behind: after calls with checkpoint names on a
    directory that starts out missing or empty, every entry of the
    directory is the manifest, the best marker or a checkpoint the manifest
    lists. *)
Theorem save_all_no_leak calls fs :
  fresh fs → calls ≠ [] →
  Forall (λ c, plain_name (c_name c) = true) calls →
  ∃ d m, save_all calls fs = (Ok tt, Dir d)
         ∧ get_previous_checkpoints (Dir d) = (Ok m, Dir d)
         ∧ ∀ n, is_Some (d !! n) →
                n = list_path ∨ n = best_path ∨ n ∈ m.
Proof.
  intros Hfresh Hne Hcalls.
  pose proof Hfresh as [Hfs Htidy]%fresh_tidy.
  destruct (save_all_tidy calls fs [] Hfs Htidy Hcalls)
    as (fs' & Hall & _ & Htidy' & Hman).
  destruct (save_all_invariant
              (λ d m, ∀ n, is_Some (d !! n) →
                           n = list_path ∨ n = best_path ∨ n ∈ m)
              (λ _, True) calls fs [] Hfs Htidy)
    as (fs'' & Hall' & _ & _ & Hdom).
  { intros n. destruct Hfresh as [-> | ->]; cbn [opened];
      rewrite lookup_empty; by intros [??]. }
  { eapply Forall_impl; [exact Hcalls|]. by intros c ?. }
  { intros c d m _ Hc Htd HP n.
    rewrite lookup_insert. case_decide as Hn; [by left|].
    rewrite lookup_remove_all. case_decide as Hout; [by intros [??]|].
    rewrite lookup_touched_ne by done. rewrite lookup_written.
    intros Hsome.
    assert (n = best_path ∨ n ∈ updated (c_name c) m) as [?|Hupd].
    { case_decide as Hw.
      - destruct Hw as [->|[_ ->]]; [|by left].
        right. apply elem_of_updated. by left.
      - destruct (HP n Hsome) as [?|[?|?]]; [done|by left|].
        right. apply elem_of_updated. by right. }
    { by right; left. }
    right; right. unfold rotated.
    rewrite <- (slice_to_from (c_keep c)) in Hupd.
    by apply elem_of_app in Hupd as [?|?]. }
  rewrite Hall in Hall'. injection Hall' as <-.
  destruct (tidy_dir fs' _ Htidy') as (d & -> & Hget & _).
  { rewrite Hman by done. by eexists. }
  by exists d, (manifest_after calls []).
Qed.

Lemma last_best_none calls :
  Forall (λ c, c_best c = false) calls → last_best calls = None.
Proof.
  induction 1 as [|c calls Hc Hcalls IH]; [done|].
  cbn [last_best]. by rewrite IH, Hc.
Qed.

Lemma load_best_checkpoint_none fs :
  opened fs !! best_path = None →
  load_best_checkpoint fs = (Ok None, fs).
Proof.
  intros Hbest. run_unfold. rewrite joinpath_best_path. step.
  destruct fs as [| |d]; [done..|]. cbn [opened] in Hbest. by rewrite Hbest.
Qed.

(** X6.  Without a call that has [is_best] there is no best checkpoint:
    after calls with checkpoint names other than [best.ckpt] on a directory
    that starts out missing or empty, [load_best_checkpoint] returns
    [None]. *)
Theorem load_best_checkpoint_unset calls fs :
  fresh fs →
  Forall (λ c, plain_name (c_name c) = true ∧ c_name c ≠ best_path
               ∧ c_best c = false) calls →
  ∃ fs', save_all calls fs = (Ok tt, fs')
         ∧ load_best_checkpoint fs' = (Ok None, fs').
Proof.
  intros Hfresh Hcalls.
  pose proof Hfresh as [Hfs Htidy]%fresh_tidy.
  destruct (save_all_best calls fs [] None Hfs Htidy) as (fs' & Hall & Hbest);
    [by intros ?%elem_of_nil| | |].
  { by destruct Hfresh as [-> | ->]. }
  { eapply Forall_impl; [exact Hcalls|]. by intros c (? & ? & _). }
  rewrite last_best_none in Hbest.
  2:{ eapply Forall_impl; [exact Hcalls|]. by intros c (_ & _ & ?). }
  exists fs'. split; [done|]. by apply load_best_checkpoint_none.
Qed.

Lemma is_file_missing d n :
  joinpath n = Child n → d !! n = None →
  is_file n (Dir d) = (Ok false, Dir d).
Proof. intros Hn Hd. unfold is_file. by rewrite Hn, Hd. Qed.

(** X7.  A [max_keep] that is zero or negative keeps nothing on a directory
    that starts out missing or empty: the call returns, the checkpoint it
    has written is removed again and the manifest is empty.  The best
    marker of a call with [is_best] stays, unless the checkpoint itself is
    named [best.ckpt]: then it is removed with it, and
    [load_best_checkpoint] returns [None]. *)
Theorem save_checkpoint_keeps_nothing state_dict name is_best max_keep fs :
  max_keep ≤ 0 → fresh fs → plain_name name = true →
  ∃ d',
    save_checkpoint state_dict name is_best max_keep fs = (Ok tt, Dir d')
    ∧ get_previous_checkpoints (Dir d') = (Ok [], Dir d')
    ∧ is_file name (Dir d') = (Ok false, Dir d')
    ∧ (is_best = true → name ≠ best_path →
       load_best_checkpoint (Dir d') = (Ok (Some state_dict), Dir d'))
    ∧ (name = best_path →
       load_best_checkpoint (Dir d') = (Ok None, Dir d')).
Proof.
  intros Hk [Hfs Htidy]%fresh_tidy Hname.
  destruct (save_checkpoint_tidy state_dict name is_best max_keep fs []
              Hfs Htidy Hname) as [Hrun Htidy'].
  apply plain_name_spec in Hname as (_ & Hjoin & Hlist).
  assert (updated name [] = [name]) as Hupd by done.
  assert (rotated name max_keep [] = []) as Hrot.
  { unfold rotated, Py.slice_to, Py.slice_index. rewrite Hupd. cbn [length].
    destruct (Z.ltb_spec max_keep 0).
    - by replace (Z.to_nat (Z.max 0 (Z.of_nat 1 + max_keep))) with 0%nat by lia.
    - by replace max_keep with 0 by lia. }
  assert (Py.slice_from max_keep [name] = [name]) as Hfrom.
  { unfold Py.slice_from, Py.slice_index. cbn [length].
    destruct (Z.ltb_spec max_keep 0).
    - by replace (Z.to_nat (Z.max 0 (Z.of_nat 1 + max_keep))) with 0%nat by lia.
    - by replace max_keep with 0 by lia. }
  rewrite Hupd, Hrot, Hfrom in *.
  eexists. split; [exact Hrun|]. split; [|split; [|split]].
  4:{ intros ->. apply load_best_checkpoint_none. cbn [opened].
      rewrite lookup_insert_ne by done.
      rewrite lookup_remove_all. by rewrite decide_True by by left. }
  - rewrite (tidy_get_previous_checkpoints _ _ Htidy').
    unfold touched. by rewrite lookup_insert_eq.
  - apply is_file_missing; [done|].
    rewrite lookup_insert_ne by done.
    rewrite lookup_remove_all. by rewrite decide_True by by left.
  - intros -> Hne. apply load_best_checkpoint_ckpt.
    rewrite lookup_insert_ne by apply list_path_not_best.
    rewrite lookup_remove_all, decide_False
      by (intros Heq%list_elem_of_singleton; by apply Hne).
    rewrite lookup_touched_ne by (by intros ?; apply list_path_not_best).
    rewrite lookup_written. rewrite decide_True; [done|by right].
Qed.

(** X8.  A call can remove the checkpoint it has just written: on a
    directory written by [save_checkpoint] alone, when the name is listed
    beyond the first [max_keep] entries of the manifest, the call leaves the
    name neither on disk nor in the manifest, which is cut to its first
    [max_keep] entries. *)
Theorem save_checkpoint_removes_own_file calls fs0 fs m state_dict name
    is_best max_keep :
  0 < max_keep → fresh fs0 →
  Forall (λ c, plain_name (c_name c) = true) calls →
  save_all calls fs0 = (Ok tt, fs) →
  get_previous_checkpoints fs = (Ok m, fs) →
  name ∈ drop (Z.to_nat max_keep) m →
  ∃ d',
    save_checkpoint state_dict name is_best max_keep fs = (Ok tt, Dir d')
    ∧ is_file name (Dir d') = (Ok false, Dir d')
    ∧ get_previous_checkpoints (Dir d')
      = (Ok (take (Z.to_nat max_keep) m), Dir d')
    ∧ name ∉ take (Z.to_nat max_keep) m.
Proof.
  intros Hk [Hfs0 Htidy0]%fresh_tidy Hcalls Hall Hget Hin.
  destruct (save_all_tidy calls fs0 [] Hfs0 Htidy0 Hcalls)
    as (fs_ & Hall_ & Hfs & Htidy & _).
  rewrite Hall in Hall_. injection Hall_ as <-.
  destruct (get_previous_checkpoints_inv _ _ _ Hget) as (d & -> & _).
  cbn [opened] in Htidy.
  rewrite (tidy_get_previous_checkpoints _ _ Htidy) in Hget.
  injection Hget as <- _.
  set (m := manifest_after calls []) in *.
  assert (name ∈ m) as Hm by by apply subseteq_drop in Hin.
  pose proof (tidy_names _ _ Htidy) as Hnames.
  eapply Forall_forall in Hnames; [|exact Hm].
  destruct (save_checkpoint_tidy state_dict name is_best max_keep (Dir d) m
              Hfs Htidy Hnames) as [Hrun Htidy'].
  apply plain_name_spec in Hnames as (_ & Hjoin & Hlist).
  assert (updated name m = m) as Hupd.
  { unfold updated, Py.contains. by rewrite bool_decide_true. }
  unfold rotated in *. rewrite Hupd in *.
  destruct (slice_positive max_keep m Hk) as [Hto Hfrom].
  rewrite Hto, Hfrom in *.
  eexists. split; [exact Hrun|]. split; [|split].
  - apply is_file_missing; [done|].
    rewrite lookup_insert_ne by done.
    rewrite lookup_remove_all. by rewrite decide_True.
  - rewrite (tidy_get_previous_checkpoints _ _ Htidy').
    unfold touched. by rewrite lookup_insert_eq.
  - pose proof (tidy_nodup _ _ Htidy) as Hnd.
    rewrite <- (take_drop (Z.to_nat max_keep) m) in Hnd.
    apply NoDup_app in Hnd as (_ & Hdisj & _).
    intros Htake. by apply (Hdisj name).
Qed.

Lemma stops_at_deleted (d : gmap string entry) n p e :
  stops_at (delete n d) p e → stops_at d p e.
Proof.
  unfold stops_at.
  destruct (joinpath p) as [|k|k|]; try done.
  all: by intros [[_ ?]%lookup_delete_Some ?].
Qed.

Lemma stops_at_exn (d : gmap string entry) p e :
  stops_at d p e → e = IsADirectoryError ∨ e = Untracked.
Proof.
  unfold stops_at. destruct (joinpath p) as [|k|k|].
  - by left.
  - intros [_ ?]. by left.
  - intros [_ ?]. by right.
  - by right.
Qed.

Lemma stops_at_unlinkable (d : gmap string entry) p e :
  stops_at d p e → ¬ unlinkable d p.
Proof.
  unfold stops_at, unlinkable. destruct (joinpath p) as [|k|k|].
  - by intros _ [].
  - by intros [? _] ?.
  - by intros [? _] ?.
  - by intros _ [].
Qed.

Lemma entries_of_cons x l :
  entries_of (x :: l)
  = match joinpath x with Child n => n :: entries_of l | _ => entries_of l end.
Proof.
  unfold entries_of. cbn [omap list_omap]. unfold entry_of at 1.
  by destruct (joinpath x).
Qed.

(** The loop gets past a first part of its list and removes the entries
    that part names; when it raises, it raises at the next path. *)
Lemma unlink_existing_partial l d r fs' :
  unlink_existing l (Dir d) = (r, fs') →
  ∃ l1 l2,
    l = l1 ++ l2 ∧ fs' = Dir (remove_all (entries_of l1) d)
    ∧ Forall (unlinkable d) l1
    ∧ match r with
      | Ok _ => l2 = []
      | Raise e => ∃ x l3, l2 = x :: l3 ∧ stops_at d x e
      end.
Proof.
  revert d. induction l as [|x l IH]; intros d; cbn [unlink_existing].
  { intros [= <- <-]. by exists [], []. }
  assert (∀ e, stops_at d x e →
               ∃ l1 l2, x :: l = l1 ++ l2
                 ∧ Dir d = Dir (remove_all (entries_of l1) d)
                 ∧ Forall (unlinkable d) l1
                 ∧ ∃ y l3, l2 = y :: l3 ∧ stops_at d y e) as Hstop.
  { intros e Hx. exists [], (x :: l). repeat (split; [done|]).
    by exists x, l. }
  assert (∀ n l1 l2 (r : result unit),
            unlinkable d x → d !! n ≠ Some Subdir →
            Forall (unlinkable (delete n d)) l1 →
            match r with
            | Ok _ => l2 = []
            | Raise e => ∃ y l3, l2 = y :: l3 ∧ stops_at (delete n d) y e
            end →
            Forall (unlinkable d) (x :: l1)
            ∧ match r return Prop with
              | Ok _ => l2 = []
              | Raise e => ∃ y l3, l2 = y :: l3 ∧ stops_at d y e
              end) as Hnext.
  { intros n l1 l2 r0 Hx Hn Hl1 Hr. split.
    - apply Forall_cons. split; [done|].
      eapply Forall_impl; [exact Hl1|]. intros p. by apply unlinkable_delete.
    - destruct r0 as [|e]; [done|]. destruct Hr as (y & l3 & -> & Hy).
      exists y, l3. split; [done|]. by eapply stops_at_deleted. }
  unfold bind at 1. unfold path_exists.
  destruct (joinpath x) as [|n|n|] eqn:Hx.
  - unfold is_dir, bind, unlink. rewrite Hx. cbn [on_directory].
    intros [= <- <-]. apply Hstop. unfold stops_at. by rewrite Hx.
  - unfold bind. destruct (d !! n) as [e|] eqn:He.
    + rewrite bool_decide_true by eauto. unfold unlink, in_dir.
      rewrite Hx, He. destruct e as [s|t|].
      3:{ intros [= <- <-]. apply Hstop. unfold stops_at. by rewrite Hx. }
      all: intros (l1 & l2 & -> & -> & Hl1 & Hr)%IH; exists (x :: l1), l2.
      all: split; [done|]; split; [by rewrite entries_of_cons, Hx|].
      all: apply (Hnext n); [|by rewrite He|done..].
      all: unfold unlinkable; by rewrite Hx, He.
    + rewrite bool_decide_false by (by intros [??]). unfold ret.
      intros (l1 & l2 & -> & -> & Hl1 & Hr)%IH. exists (x :: l1), l2.
      split; [done|]. split.
      { rewrite entries_of_cons, Hx. cbn [remove_all].
        by rewrite (delete_id d n He). }
      rewrite <- (delete_id d n He) in Hl1, Hr.
      apply (Hnext n); [|by rewrite He|done..].
      unfold unlinkable. by rewrite Hx, He.
  - unfold bind, through_exists.
    destruct (d !! n) as [e|] eqn:He; [destruct e as [s|t|]|].
    3:{ intros [= <- <-]. apply Hstop. unfold stops_at. by rewrite Hx. }
    all: unfold ret; intros (l1 & l2 & -> & -> & Hl1 & Hr)%IH;
      exists (x :: l1), l2.
    all: split; [done|]; split; [by rewrite entries_of_cons, Hx|].
    all: split; [|done].
    all: apply Forall_cons; split; [|done].
    all: unfold unlinkable; by rewrite Hx, He.
  - unfold raise. intros [= <- <-]. apply Hstop. unfold stops_at.
    by rewrite Hx.
Qed.

Lemma save_checkpoint_raises_in_pruning_aux state_dict name is_best
    max_keep fs previous d1 e fs' :
  save_reads state_dict name is_best fs = (Ok previous, Dir d1) →
  save_checkpoint state_dict name is_best max_keep fs = (Raise e, fs') →
  ∃ removed x rest,
    Py.slice_from max_keep (updated name previous) = removed ++ x :: rest
    ∧ Forall (unlinkable d1) removed
    ∧ stops_at d1 x e
    ∧ fs' = Dir (remove_all (entries_of removed) d1).
Proof.
  intros Hreads. rewrite save_checkpoint_split. unfold bind at 1.
  rewrite Hreads. unfold bind.
  destruct (unlink_existing _ _) as [[[]|e'] fs2] eqn:Hloop.
  - apply unlink_existing_partial in Hloop as (l1 & l2 & _ & -> & _).
    apply save_reads_inv in Hreads as (_ & key & _ & [= ->] & _ & Hsub).
    unfold open_write, in_dir. rewrite joinpath_list_path.
    rewrite lookup_remove_all. case_decide; [done|].
    by destruct (_ !! list_path) as [[]|].
  - apply unlink_existing_partial in Hloop
      as (l1 & l2 & Hl & -> & Hl1 & x & l3 & -> & Hx).
    intros [= <- <-]. by exists l1, x, l3.
Qed.

(** X9.  Nothing is rolled back.  When [save_checkpoint] raises after it
    has read the manifest, it raises in the pruning loop, at the first
    line beyond [max_keep] that the loop does not get past: with
    [IsADirectoryError] at a line that names the directory itself or a
    subdirectory (and at a path this model does not follow, with its
    [Untracked]).  The entries that the lines before that one name are
    removed already, the new checkpoint among them if one of those lines
    names it; every other entry is as the reading left it, the manifest
    file among them: it is not written again. *)
Theorem save_checkpoint_raises_in_pruning state_dict name is_best max_keep
    fs previous d1 e fs' :
  save_reads state_dict name is_best fs = (Ok previous, Dir d1) →
  save_checkpoint state_dict name is_best max_keep fs = (Raise e, fs') →
  ∃ removed x rest,
    Py.slice_from max_keep (updated name previous) = removed ++ x :: rest
    ∧ Forall (unlinkable d1) removed
    ∧ stops_at d1 x e
    ∧ fs' = Dir (remove_all (entries_of removed) d1)
    ∧ ∀ n, opened fs' !! n
           = if decide (n ∈ entries_of removed) then None else d1 !! n.
Proof.
  intros Hreads Hsave.
  destruct (save_checkpoint_raises_in_pruning_aux _ _ _ _ _ _ _ _ _
              Hreads Hsave) as (removed & x & rest & Htail & Hrem & Hx & ->).
  exists removed, x, rest. repeat (split; [done|]).
  intros n. cbn [opened]. apply lookup_remove_all.
Qed.

Lemma torch_save_dir state_dict p d r fs' :
  torch_save state_dict p (Dir d) = (r, fs') →
  (∃ d', fs' = Dir d')
  ∧ match r with
    | Ok _ => True
    | Raise e => e = RuntimeError ∨ e = Untracked
    end.
Proof.
  unfold torch_save, in_dir, raise.
  destruct (joinpath p) as [|n|n|].
  - intros [= <- <-]. split; [by eexists|by left].
  - destruct (d !! n) as [[]|]; intros [= <- <-];
      (split; [by eexists|]); try done; by left.
  - destruct (d !! n) as [[]|]; intros [= <- <-];
      (split; [by eexists|]); by (left + right).
  - intros [= <- <-]. split; [by eexists|by right].
Qed.

Lemma get_previous_checkpoints_raise d e fs' :
  get_previous_checkpoints (Dir d) = (Raise e, fs') →
  e = IsADirectoryError ∨ e = UnicodeDecodeError.
Proof.
  destruct (d !! list_path) as [x|] eqn:Hd.
  - run_unfold. rewrite joinpath_list_path.
    repeat (progress (step; rewrite ?Hd)).
    destruct x as [s|t|]; [destruct (text_of_ckpt s)|..]; step;
      try done; intros [= <- <-]; by (left + right).
  - by rewrite (get_previous_checkpoints_missing _ Hd).
Qed.

Lemma save_reads_raise state_dict name is_best fs e fs' :
  save_reads state_dict name is_best fs = (Raise e, fs') → fs ≠ Regular →
  e ≠ AssertionError.
Proof.
  intros Hreads Hfs.
  assert (∃ d, mkdir fs = (Ok tt, Dir d)) as [d Hmk].
  { destruct fs; [by eexists|done|by eexists]. }
  revert Hreads. unfold save_reads, bind at 1. rewrite Hmk. unfold bind at 1.
  destruct (torch_save state_dict name (Dir d)) as [[[]|e1] fs1] eqn:H1;
    apply torch_save_dir in H1 as [[d1 ->] He1].
  2:{ intros [= <- <-]. by destruct He1 as [-> | ->]. }
  unfold bind at 1.
  destruct ((if is_best then torch_save state_dict best_path else ret tt)
              (Dir d1)) as [[[]|e2] fs2] eqn:H2.
  - assert (∃ d2, fs2 = Dir d2) as [d2 ->].
    { destruct is_best; [by apply torch_save_dir in H2 as [? _]|].
      injection H2 as <-. by eexists. }
    by intros [-> | ->]%get_previous_checkpoints_raise.
  - destruct is_best; [|done].
    apply torch_save_dir in H2 as [_ He2].
    intros [= <- <-]. by destruct He2 as [-> | ->].
Qed.

(** X10.  [save_checkpoint] raises [FileExistsError], and does nothing, when
    the parent path is a regular file.  And the assertion of
    [get_previous_checkpoints] holds whenever [save_checkpoint] calls it:
    [mkdir] has made the path a directory, and a saved checkpoint leaves
    it one, so [save_checkpoint] never raises [AssertionError]. *)
Theorem save_checkpoint_assertion_holds state_dict name is_best max_keep fs :
  (fs = Regular →
   save_checkpoint state_dict name is_best max_keep fs
   = (Raise FileExistsError, Regular))
  ∧ (∀ fs',
       save_checkpoint state_dict name is_best max_keep fs
       ≠ (Raise AssertionError, fs')).
Proof.
  split; [by intros ->|].
  intros fs' Hsave.
  assert (fs ≠ Regular) as Hfs by (by intros ->).
  destruct (save_reads state_dict name is_best fs) as [[prev|e0] fs1] eqn:Hr.
  - apply save_reads_inv in Hr as Hinv.
    destruct Hinv as (_ & key & _ & -> & _).
    destruct (save_checkpoint_raises_in_pruning_aux _ _ _ _ _ _ _ _ _
                Hr Hsave) as (_ & x & _ & _ & _ & Hx & _).
    by apply stops_at_exn in Hx as [?|?].
  - rewrite save_checkpoint_split in Hsave. unfold bind in Hsave.
    rewrite Hr in Hsave. injection Hsave as -> <-.
    by eapply save_reads_raise.
Qed.

End Store.

Arguments Ckpt {State} s.
Arguments Text {State} t.
Arguments Subdir {State}.
Arguments Absent {State}.
Arguments Regular {State}.
Arguments Dir {State} d.
Arguments Call {State} c_state c_name c_best c_keep.
Arguments c_name {State} c.
Arguments c_keep {State} c.
Arguments fresh {State} fs.
Arguments opened {State} fs.
Arguments is_dir {State} _.
Arguments is_file {State} p _.
Arguments path_exists {State} p _.
Arguments last_best {State} calls.
Arguments save_checkpoint {State} text_of_ckpt state_dict name is_best
  max_keep _.
Arguments save_reads {State} text_of_ckpt state_dict name is_best _.
Arguments save_all {State} text_of_ckpt calls _.
Arguments get_previous_checkpoints {State} text_of_ckpt _.
Arguments load_best_checkpoint {State} ckpt_of_text _.
Arguments remove_all {State} ckpts d.
Arguments bind {State A B} m k _.
Arguments open_write {State} p t _.

Arguments unlinkable {State} d p.
Arguments stops_at {State} d p e.
(** ** Moving to the device *)

Section ToCudaProperties.

Context {Tensor : Type} (to : Tensor → string → Tensor).

Lemma mapM_to_method device (xs : list Tensor) :
  mapM (to_method to device) (Object <$> xs)
  = Some ((λ x, Object (to x device)) <$> xs).
Proof.
  induction xs as [|x xs IH]; [done|].
  rewrite !fmap_cons. cbn [mapM]. rewrite IH. done.
Qed.

(** X11.  Given a tuple or a list of objects, [to_cuda] returns a list,
    also for a tuple, with every object moved to the device of
    [get_device], in the same order; the device is ["cuda"] whenever CUDA
    is available. *)
Theorem to_cuda_members cuda_available mps_available (xs : list Tensor) :
  let moved :=
    PyList ((λ x, Object (to x (get_device cuda_available mps_available)))
              <$> xs) in
  to_cuda to cuda_available mps_available (PyTuple (Object <$> xs))
  = Some moved
  ∧ to_cuda to cuda_available mps_available (PyList (Object <$> xs))
    = Some moved
  ∧ (cuda_available = true →
     get_device cuda_available mps_available = "cuda").
Proof.
  cbn [to_cuda]. rewrite mapM_to_method.
  split; [done|]. split; [done|]. by intros ->.
Qed.

(** X12.  [to_cuda] does not descend into its argument and checks
    nothing: on a tuple or a list it raises exactly when some member has no
    [to] method, and then no list is returned.  A member that is itself a
    tuple or a list is such a member, whatever it holds, and so is any
    other object without the method; an argument of that kind which is
    neither a tuple nor a list raises as well. *)
Theorem to_cuda_nested cuda_available mps_available (l : list (value Tensor)) :
  (to_cuda to cuda_available mps_available (PyList l) = None
   ↔ Exists (λ x, ∀ t, x ≠ Object t) l)
  ∧ (to_cuda to cuda_available mps_available (PyTuple l) = None
     ↔ Exists (λ x, ∀ t, x ≠ Object t) l)
  ∧ (∀ x, x ∈ l → (∃ l', x = PyList l' ∨ x = PyTuple l') ∨ (∃ r, x = Plain r) →
          to_cuda to cuda_available mps_available (PyList l) = None
          ∧ to_cuda to cuda_available mps_available (PyTuple l) = None)
  ∧ (∀ r, to_cuda to cuda_available mps_available (Plain r) = None).
Proof.
  assert (∀ device x,
            to_method to device x = None ↔ ∀ t, x ≠ @Object Tensor t) as Hm.
  { intros device [t|r|l'|l']; cbn [to_method]; split; try done.
    intros H. by destruct (H t). }
  cbn [to_cuda].
  assert (∀ device,
            PyList <$> mapM (to_method to device) l = None
            ↔ Exists (λ x, ∀ t, x ≠ @Object Tensor t) l) as Hl.
  { intros device. rewrite fmap_None, mapM_None.
    split; intros H; (eapply Exists_impl; [exact H|]); intros x; apply Hm. }
  split; [apply Hl|]. split; [apply Hl|]. split; [|done].
  intros x Hx Hkind.
  assert (Exists (λ x, ∀ t, x ≠ @Object Tensor t) l) as Hex.
  { apply Exists_exists. exists x. split; [done|].
    intros t. destruct Hkind as [[l' [-> | ->]]|[r ->]]; done. }
  split; by apply Hl.
Qed.

End ToCudaProperties.

(** ** Plotting the loss *)

Section PlotLossProperties.

Context {Step Tensor Num : Type}.
Context (cpu_numpy : Tensor → Num).
Context (type_of_step : Step → string) (type_of_loss : Num → string).
Context (np_mean np_std : list Num → Num) (np_sub np_add : Num → Num → Num).

Local Abbreviation plot :=
  (plot_loss cpu_numpy type_of_step type_of_loss np_mean np_std np_sub
     np_add).
Local Abbreviation number_of :=
  (λ loss_val : loss_val Tensor Num,
     match loss_val with
     | TensorLoss t => cpu_numpy t
     | NumberLoss v => v
     end).
(** The values plotted: the losses, tensors converted. *)
Local Abbreviation numbers loss_dict := (number_of <$> loss_dict.*2).
(** The [i]-th block of ten losses. *)
Local Abbreviation block loss i :=
  (slice (i * 10) ((i + 1) * 10) loss).

Lemma average_loop_spec n (gs : list Step) loss range ms ss st :
  average_loop np_mean np_std n gs loss range ms ss st
  = match mapM (λ i, gs !! (i * n + n / 2)%nat) range with
    | Some sts =>
        Some (ms ++ ((λ i, np_mean (slice (i * n) ((i + 1) * n) loss))
                       <$> range),
              ss ++ ((λ i, np_std (slice (i * n) ((i + 1) * n) loss))
                       <$> range),
              st ++ sts)
    | None => None
    end.
Proof.
  revert ms ss st. induction range as [|i range IH]; intros ms ss st.
  - cbn. by rewrite !app_nil_r.
  - cbn [average_loop mapM]. destruct (gs !! _) as [step|]; [|done].
    rewrite IH. cbn. destruct (mapM _ range) as [sts|]; [|done].
    cbn. by rewrite <- !app_assoc.
Qed.

(** The keys the averaged curve is drawn against are all there. *)
Lemma block_steps (gs : list Step) :
  ∃ steps,
    mapM (λ i, gs !! (i * 10 + 10 / 2)%nat) (seq 0 (length gs / 10))
    = Some steps
    ∧ length steps = (length gs / 10)%nat
    ∧ ∀ i, (i < length gs / 10)%nat →
           steps !! i = gs !! (i * 10 + 5)%nat.
Proof.
  pose proof (Nat.Div0.mul_div_le (length gs) 10) as Hdiv.
  destruct (mapM_is_Some_2 (λ i, gs !! (i * 10 + 10 / 2)%nat)
              (seq 0 (length gs / 10))) as [steps Hsteps].
  { apply Forall_forall. intros i [_ Hi]%elem_of_seq.
    apply lookup_lt_is_Some. change (10 / 2)%nat with 5%nat. lia. }
  exists steps. split; [done|].
  apply mapM_Some_1 in Hsteps.
  apply Forall2_length in Hsteps as Hlen. rewrite length_seq in Hlen.
  split; [done|]. intros i Hi.
  destruct (lookup_lt_is_Some_2 steps i) as [x Hx]; [lia|].
  rewrite Hx. symmetry.
  eapply (Forall2_lookup_lr _ _ _ i) in Hsteps;
    [exact Hsteps|by apply lookup_seq_lt|done].
Qed.

(** The averaged branch, in closed form. *)
Lemma plot_loss_averaged item rest label n :
  n ≠ 1 →
  let loss_dict := item :: rest in
  let points := (length loss_dict / 10)%nat in
  let means :=
    (λ i, np_mean (block (numbers loss_dict) i)) <$> seq 0 points in
  let stds :=
    (λ i, np_std (block (numbers loss_dict) i)) <$> seq 0 points in
  ∃ steps,
    length steps = points
    ∧ (∀ i, (i < points)%nat → steps !! i = loss_dict.*1 !! (i * 10 + 5)%nat)
    ∧ plot loss_dict label n true
      = ([Print ("global_steps[0] type: " +:+ type_of_step item.1);
          Print ("loss[0] type: " +:+ type_of_loss (number_of item.2));
          Plot steps means
            (Some (format_label label +:+ " (mean over 10 steps)"));
          FillBetween steps (zip_with np_sub means stds)
            (zip_with np_add means stds)
            (format_label label +:+ " variance over 10 steps")],
         Returned).
Proof.
  intros Hn loss_dict points means stds.
  destruct (block_steps loss_dict.*1) as (steps & Hsteps & Hlen & Hlook).
  rewrite length_fmap in Hsteps, Hlen, Hlook.
  exists steps. split; [done|]. split; [done|].
  assert ((item :: rest).*1 !! 0%nat = Some item.1) as Hstep0 by done.
  assert (numbers (item :: rest) !! 0%nat = Some (number_of item.2))
    as Hloss0 by done.
  unfold plot_loss. cbv zeta. subst loss_dict. rewrite Hstep0, Hloss0.
  apply Z.eqb_neq in Hn. rewrite Hn. cbn [orb negb].
  rewrite average_loop_spec.
  rewrite !length_fmap. rewrite Hsteps. done.
Qed.

(** X13.  [plot_loss] raises [IndexError] exactly on an empty dictionary,
    and then before anything is printed or plotted: on a dictionary with
    an entry both [global_steps[0]] and [loss[0]] are there, and in the
    averaging loop the index [i * 10 + 5] stays in range for every
    [i < len(loss) // 10]. *)
Theorem plot_loss_index_error loss_dict label n plot_variance :
  (loss_dict = [] →
   plot_loss cpu_numpy type_of_step type_of_loss np_mean np_std np_sub
     np_add loss_dict label n plot_variance
   = ([], IndexError))
  ∧ ((plot_loss cpu_numpy type_of_step type_of_loss np_mean np_std np_sub
        np_add loss_dict label n plot_variance).2
     = IndexError →
     loss_dict = []).
Proof.
  split; [by intros ->|].
  destruct loss_dict as [|item rest]; [done|].
  destruct (decide (n = 1)) as [->|Hn]; [done|].
  destruct plot_variance.
  - destruct (plot_loss_averaged item rest label n Hn) as (? & _ & _ & ->).
    done.
  - unfold plot_loss. cbv zeta.
    assert ((item :: rest).*1 !! 0%nat = Some item.1) as -> by done.
    assert (numbers (item :: rest) !! 0%nat = Some (number_of item.2))
      as -> by done.
    by rewrite orb_true_r.
Qed.

(** X14.  With [plot_variance] and a [npoints_to_average] other than 1 the
    curve is averaged over blocks of ten losses, whatever the value of
    [npoints_to_average]: a dictionary of [len] entries gives [len // 10]
    points, point [i] is the mean of the losses [10 i] to [10 i + 9] and is
    drawn at the key of entry [10 i + 5], and the band is the mean minus and
    plus the deviation of the block. *)
Theorem plot_loss_blocks_of_ten item rest label n :
  n ≠ 1 →
  let loss_dict := item :: rest in
  let points := (length loss_dict / 10)%nat in
  let means :=
    (λ i, np_mean (block (numbers loss_dict) i)) <$> seq 0 points in
  let stds :=
    (λ i, np_std (block (numbers loss_dict) i)) <$> seq 0 points in
  ∃ steps,
    length steps = points
    ∧ (∀ i, (i < points)%nat → steps !! i = loss_dict.*1 !! (i * 10 + 5)%nat)
    ∧ plot_loss cpu_numpy type_of_step type_of_loss np_mean np_std np_sub
       np_add loss_dict label n true
      = ([Print ("global_steps[0] type: " +:+ type_of_step item.1);
          Print ("loss[0] type: " +:+ type_of_loss (number_of item.2));
          Plot steps means
            (Some (format_label label +:+ " (mean over 10 steps)"));
          FillBetween steps (zip_with np_sub means stds)
            (zip_with np_add means stds)
            (format_label label +:+ " variance over 10 steps")],
         Returned).
Proof. apply plot_loss_averaged. Qed.

(** X15.  Every curve is drawn with as many abscissas as ordinates: in each
    [plot] call, and in the [fill_between] call with both of its bounds, the
    lists have the same length. *)
Theorem plot_loss_same_lengths loss_dict label n plot_variance o :
  o ∈ (plot_loss cpu_numpy type_of_step type_of_loss np_mean np_std np_sub
         np_add loss_dict label n plot_variance).1 →
  match o with
  | Print _ => True
  | Plot x y _ => length x = length y
  | FillBetween x y1 y2 _ => length x = length y1 ∧ length x = length y2
  end.
Proof.
  destruct loss_dict as [|item rest]; [by intros ?%elem_of_nil|].
  assert (n = 1 ∨ plot_variance = false ∨ (n ≠ 1 ∧ plot_variance = true))
    as [->|[->|[Hn ->]]].
  { destruct (decide (n = 1)), plot_variance; auto. }
  1,2: unfold plot_loss; cbv zeta;
    assert ((item :: rest).*1 !! 0%nat = Some item.1) as -> by done;
    assert (numbers (item :: rest) !! 0%nat = Some (number_of item.2))
      as -> by done;
    rewrite ?orb_true_r; cbn [Z.eqb orb fst app];
    intros [->|[->|[->|?%elem_of_nil]%elem_of_cons]%elem_of_cons]%elem_of_cons;
    try done; cbn [length]; by rewrite !length_fmap.
  destruct (plot_loss_averaged item rest label n Hn) as (steps & Hlen & _ & ->).
  cbn [fst].
  intros [->|[->|[->|[->|?%elem_of_nil]%elem_of_cons]%elem_of_cons]
            %elem_of_cons]%elem_of_cons; try done.
  - by rewrite Hlen, length_fmap, length_seq.
  - rewrite !length_zip_with, !length_fmap, !length_seq, Hlen. lia.
Qed.

Lemma block_app {A} (l extra : list A) i :
  (i * 10 + 10 ≤ length l)%nat →
  slice (i * 10) ((i + 1) * 10) (l ++ extra) = slice (i * 10) ((i + 1) * 10) l.
Proof.
  intros Hi. unfold slice. rewrite drop_app_le by lia.
  apply take_app_le. rewrite length_drop. lia.
Qed.

(** X16.  The losses after the last full block of ten are not drawn: with
    [plot_variance] and [npoints_to_average] other than 1, adding up to nine
    entries to a dictionary of a multiple of ten entries changes nothing of
    what is printed and plotted. *)
Theorem plot_loss_drops_last_block loss_dict extra label n :
  n ≠ 1 → loss_dict ≠ [] →
  (length loss_dict mod 10 = 0)%nat → (length extra < 10)%nat →
  plot_loss cpu_numpy type_of_step type_of_loss np_mean np_std np_sub
    np_add (loss_dict ++ extra) label n true
  = plot_loss cpu_numpy type_of_step type_of_loss np_mean np_std np_sub
      np_add loss_dict label n true.
Proof.
  intros Hn Hne Hmod Hextra.
  destruct loss_dict as [|item rest]; [done|].
  assert (∃ q, length (item :: rest) = (q * 10)%nat) as [q Hq].
  { exists (length (item :: rest) / 10)%nat.
    pose proof (Nat.div_mod_eq (length (item :: rest)) 10). lia. }
  assert ((length (item :: rest) / 10 = q)%nat) as Hdiv.
  { rewrite Hq. by rewrite Nat.div_mul. }
  assert ((length ((item :: rest) ++ extra) / 10 = q)%nat) as Hdiv'.
  { rewrite length_app, Hq.
    rewrite Nat.add_comm, Nat.div_add by done.
    by rewrite Nat.div_small. }
  destruct (plot_loss_averaged item rest label n Hn)
    as (steps & Hlen & Hlook & ->).
  destruct (plot_loss_averaged item (rest ++ extra) label n Hn)
    as (steps' & Hlen' & Hlook' & Hplot).
  rewrite <- app_comm_cons. rewrite Hplot. clear Hplot.
  rewrite app_comm_cons in *. rewrite Hdiv in *. rewrite Hdiv' in *.
  assert (steps' = steps) as ->.
  { apply list_eq. intros i. destruct (decide (i < q)%nat) as [Hi|Hi].
    - rewrite Hlook, Hlook' by done. rewrite fmap_app.
      apply lookup_app_l. rewrite length_fmap. lia.
    - rewrite !lookup_ge_None_2; [done|lia..]. }
  assert (∀ f : list Num → Num,
            (λ i, f (block (numbers ((item :: rest) ++ extra)) i))
              <$> seq 0 q
            = (λ i, f (block (numbers (item :: rest)) i)) <$> seq 0 q)
    as Hblocks.
  { intros f. apply list_fmap_ext.
    intros j i [-> Hj]%lookup_seq. rewrite !fmap_app.
    rewrite block_app; [done|]. rewrite !length_fmap. lia. }
  by rewrite !Hblocks.
Qed.

(** X17.  With fewer than ten entries the averaged branch has no full
    block: it prints, and draws an empty curve and an empty band. *)
Theorem plot_loss_short item rest label n :
  n ≠ 1 → (length (item :: rest) < 10)%nat →
  plot_loss cpu_numpy type_of_step type_of_loss np_mean np_std np_sub
    np_add (item :: rest) label n true
  = ([Print ("global_steps[0] type: " +:+ type_of_step item.1);
      Print ("loss[0] type: " +:+ type_of_loss (number_of item.2));
      Plot [] [] (Some (format_label label +:+ " (mean over 10 steps)"));
      FillBetween [] [] []
        (format_label label +:+ " variance over 10 steps")],
     Returned).
Proof.
  intros Hn Hshort.
  destruct (plot_loss_averaged item rest label n Hn)
    as (steps & Hlen & _ & ->).
  rewrite Nat.div_small in * by done.
  by apply nil_length_inv in Hlen as ->.
Qed.

End PlotLossProperties.
(** ** The store on concrete directories *)

Section Examples.

Local Abbreviation save := (save_checkpoint undecodable).
Local Abbreviation reads := (save_reads undecodable).
Local Abbreviation save_seq := (save_all undecodable).
Local Abbreviation listing := (get_previous_checkpoints undecodable).
Local Abbreviation load_best := (load_best_checkpoint unloadable).

(** The text primitives on small inputs. *)
Example strip_example :
  Py.strip ("  a b " +:+ newline) = "a b"
  ∧ Py.strip (String Py.CR newline) = "".
Proof. by vm_compute. Qed.

Example readlines_example :
  Py.readlines (Py.universal_newlines
                  ("a" +:+ String Py.CR newline +:+ "b" +:+ newline
                   +:+ newline +:+ "c"))
  = ["a" +:+ newline; "b" +:+ newline; newline; "c"]
  ∧ Py.join newline ["c"; "b"] = "c" +:+ newline +:+ "b"
  ∧ manifest_lines (Py.join newline ["c"; "b"]) = ["c"; "b"].
Proof. by vm_compute. Qed.

Example slice_example :
  Py.slice_from 2 [1; 2; 3] = [3] ∧ Py.slice_to 2 [1; 2; 3] = [1; 2]
  ∧ Py.slice_from 5 [1; 2; 3] = [] ∧ Py.slice_to 5 [1; 2; 3] = [1; 2; 3]
  ∧ Py.slice_from 0 [1; 2; 3] = [1; 2; 3] ∧ Py.slice_to 0 [1; 2; 3] = []
  ∧ Py.slice_from (-1) [1; 2; 3] = [3] ∧ Py.slice_to (-1) [1; 2; 3] = [1; 2]
  ∧ Py.slice_from (-5) [1; 2; 3] = [1; 2; 3] ∧ Py.slice_to (-5) [1; 2; 3] = [].
Proof. by vm_compute. Qed.

(** The two scenarios of the specification.  With [max_keep = 2], saving
    ["a"], ["b"] and ["c"] leaves the manifest ["c"; "b"], the files ["b"]
    and ["c"], and neither ["a"] nor a best marker. *)
Example rotation_scenario :
  save_seq [Call 0%nat "a" false 2; Call 1%nat "b" false 2;
            Call 2%nat "c" false 2] Absent
  = (Ok tt, Dir (<[list_path := Text ("c" +:+ newline +:+ "b")]>
                   (<["c" := Ckpt 2%nat]> {[ "b" := Ckpt 1%nat ]})))
  ∧ listing (Dir (<[list_path := Text ("c" +:+ newline +:+ "b")]>
                    (<["c" := Ckpt 2%nat]> {[ "b" := Ckpt 1%nat ]})))
    = (Ok ["c"; "b"],
       Dir (<[list_path := Text ("c" +:+ newline +:+ "b")]>
              (<["c" := Ckpt 2%nat]> {[ "b" := Ckpt 1%nat ]}))).
Proof. split; by vm_compute. Qed.

(** With [max_keep = 1], saving ["x"] as best and then ["y"] leaves the
    manifest ["y"], removes ["x"] and keeps the state of ["x"] in the best
    marker. *)
Example best_scenario :
  save_seq [Call 7%nat "x" true 1; Call 8%nat "y" false 1] Absent
  = (Ok tt, Dir (<[list_path := Text "y"]>
                   (<["y" := Ckpt 8%nat]> {[ best_path := Ckpt 7%nat ]})))
  ∧ load_best (Dir (<[list_path := Text "y"]>
                      (<["y" := Ckpt 8%nat]> {[ best_path := Ckpt 7%nat ]})))
    = (Ok (Some 7%nat),
       Dir (<[list_path := Text "y"]>
              (<["y" := Ckpt 8%nat]> {[ best_path := Ckpt 7%nat ]}))).
Proof. split; by vm_compute. Qed.

(** A name with a line break inside, and the directory one call with that
    name leaves. *)
Local Abbreviation two_lines := ("a" +:+ newline +:+ "b").
Local Abbreviation dir_two_lines :=
  (<[list_path := Text two_lines]> {[ two_lines := Ckpt 0%nat ]}
   : gmap string (entry nat)).

(** C1, as stated, fails: a name with a line break inside takes two lines
    of the manifest.  After one call with [max_keep = 1] the manifest lists
    two names, and neither names a file. *)
Lemma manifest_bound_broken_by_line_break :
  save_seq [Call 0%nat two_lines false 1] Absent = (Ok tt, Dir dir_two_lines)
  ∧ listing (Dir dir_two_lines) = (Ok ["a"; "b"], Dir dir_two_lines)
  ∧ ¬ (Z.of_nat (length ["a"; "b"]) ≤ 1)
  ∧ is_file "a" (Dir dir_two_lines) = (Ok false, Dir dir_two_lines)
  ∧ is_file "b" (Dir dir_two_lines) = (Ok false, Dir dir_two_lines).
Proof. repeat split; by vm_compute. Qed.

(** C1 on three calls with [max_keep = 2]. *)
Lemma save_all_manifest_bounded_witness :
  ∃ d m,
    save_seq [Call 0%nat "a" false 2; Call 1%nat "b" true 2;
              Call 2%nat "c" false 2] Absent = (Ok tt, Dir d)
    ∧ listing (Dir d) = (Ok m, Dir d)
    ∧ Z.of_nat (length m) ≤ 2
    ∧ ∀ n, n ∈ m → is_file n (Dir d) = (Ok true, Dir d).
Proof.
  apply (save_all_manifest_bounded nat undecodable 2); [lia|by left|done|].
  repeat constructor.
Defined.

(** The directory after ["a"] and then ["b"] are saved with room for
    three names. *)
Local Abbreviation dir_b_a :=
  (<[list_path := Text ("b" +:+ newline +:+ "a")]>
     (<["b" := Ckpt 1%nat]> {[ "a" := Ckpt 0%nat ]})
   : gmap string (entry nat)).

(** C2, as stated, fails: the manifest lists ["b"; "a"], so ["a"] is not its
    first entry, and a call with the name ["a"] leaves the manifest as it
    is instead of putting the name in front. *)
Lemma listed_name_not_prepended :
  save_seq [Call 0%nat "a" false 3; Call 1%nat "b" false 3] Absent
  = (Ok tt, Dir dir_b_a)
  ∧ reads 2%nat "a" false (Dir dir_b_a)
    = (Ok ["b"; "a"], Dir (<["a" := Ckpt 2%nat]> dir_b_a))
  ∧ head ["b"; "a"] ≠ Some "a"
  ∧ save 2%nat "a" false 3 (Dir dir_b_a)
    = (Ok tt, Dir (<["a" := Ckpt 2%nat]> dir_b_a))
  ∧ <["a" := Ckpt 2%nat]> dir_b_a !! list_path
    ≠ Some (Text (Py.join newline (Py.slice_to 3 ("a" :: ["b"; "a"]))))
  ∧ listing (Dir (<["a" := Ckpt 2%nat]> dir_b_a))
    = (Ok ["b"; "a"], Dir (<["a" := Ckpt 2%nat]> dir_b_a)).
Proof. repeat split; by vm_compute. Qed.

(** C2 on a call with the name ["a"] and the manifest ["b"]. *)
Lemma save_checkpoint_prepends_witness :
  (("a" : string) ∉ ["b"] →
   opened (Dir (<[list_path := Text ("a" +:+ newline +:+ "b")]>
                  (<["a" := Ckpt 2%nat]>
                     (<[list_path := Text "b"]> {[ "b" := Ckpt 1%nat ]}))))
     !! list_path
   = Some (Text (Py.join newline (Py.slice_to 3 ("a" :: ["b"])))))
  ∧ (("a" : string) ∈ ["b"] →
     opened (Dir (<[list_path := Text ("a" +:+ newline +:+ "b")]>
                    (<["a" := Ckpt 2%nat]>
                       (<[list_path := Text "b"]> {[ "b" := Ckpt 1%nat ]}))))
       !! list_path
     = Some (Text (Py.join newline (Py.slice_to 3 ["b"])))).
Proof.
  apply (save_checkpoint_prepends nat undecodable 2%nat "a" false 3
           (Dir (<[list_path := Text "b"]> {[ "b" := Ckpt 1%nat ]}))
           ["b"]
           (Dir (<["a" := Ckpt 2%nat]>
                   (<[list_path := Text "b"]> {[ "b" := Ckpt 1%nat ]}))));
    by vm_compute.
Defined.

(** C3, as stated, fails: with the manifest ["b"; "a"] of the directory
    above, two calls in a row with the name ["a"] leave ["a"] in second
    position. *)
Lemma saved_twice_not_first :
  save_seq [Call 0%nat "a" false 3; Call 1%nat "b" false 3] Absent
  = (Ok tt, Dir dir_b_a)
  ∧ save_seq [Call 2%nat "a" false 3; Call 3%nat "a" false 3] (Dir dir_b_a)
    = (Ok tt, Dir (<["a" := Ckpt 3%nat]> dir_b_a))
  ∧ listing (Dir (<["a" := Ckpt 3%nat]> dir_b_a))
    = (Ok ["b"; "a"], Dir (<["a" := Ckpt 3%nat]> dir_b_a))
  ∧ head ["b"; "a"] ≠ Some "a".
Proof. repeat split; by vm_compute. Qed.

(** C3 on two calls with the name ["a"] and [max_keep = 2] after ["a"],
    ["b"] and ["c"]: the manifest lists ["a"] in third position, and the
    two calls leave it first. *)
Lemma save_checkpoint_twice_witness :
  ∃ m fs1 d2 m2,
    reads 3%nat "a" true
      (Dir (<[list_path := Text ("c" +:+ newline +:+ "b" +:+ newline +:+ "a")]>
              (<["c" := Ckpt 2%nat]> (<["b" := Ckpt 1%nat]>
                                         {[ "a" := Ckpt 0%nat ]}))))
    = (Ok m, fs1)
    ∧ save_seq [Call 3%nat "a" true 2; Call 4%nat "a" false 2]
        (Dir (<[list_path := Text ("c" +:+ newline +:+ "b" +:+ newline
                                   +:+ "a")]>
                (<["c" := Ckpt 2%nat]> (<["b" := Ckpt 1%nat]>
                                           {[ "a" := Ckpt 0%nat ]}))))
      = (Ok tt, Dir d2)
    ∧ listing (Dir d2) = (Ok m2, Dir d2)
    ∧ "a" ∈ m2 ∧ NoDup m2
    ∧ (("a" : string) ∉ m ∨ head m = Some "a" → head m2 = Some "a")
    ∧ (("a" : string) ∈ take (Z.to_nat 2) m → m2 = take (Z.to_nat 2) m)
    ∧ (("a" : string) ∉ take (Z.to_nat 2) m → head m2 = Some "a").
Proof.
  apply (save_checkpoint_twice nat undecodable
           [Call 0%nat "a" false 3; Call 1%nat "b" false 3;
            Call 2%nat "c" false 3] Absent);
    [lia|by left|repeat constructor|by vm_compute|done].
Defined.

(** The directory after a checkpoint is saved under the name
    [latest_checkpoint] with a space in front: [strip] removes the space
    when the manifest is read. *)
Local Abbreviation dir_spaced :=
  (<[list_path := Text (" " +:+ list_path)]>
     {[ " " +:+ list_path := Ckpt 0%nat ]}
   : gmap string (entry nat)).

(** C4, as stated, fails: the manifest read lists [latest_checkpoint], the
    next call with [max_keep = 1] drops that entry and removes the manifest
    file, and then writes the manifest again: a file named by a dropped
    entry exists when the call has returned. *)
Lemma dropped_manifest_written_again :
  save 0%nat (" " +:+ list_path) false 1 Absent = (Ok tt, Dir dir_spaced)
  ∧ reads 1%nat "b" false (Dir dir_spaced)
    = (Ok [list_path], Dir (<["b" := Ckpt 1%nat]> dir_spaced))
  ∧ list_path ∈ drop 1 (updated "b" [list_path])
  ∧ save 1%nat "b" false 1 (Dir dir_spaced)
    = (Ok tt,
       Dir (<[list_path := Text "b"]> (<["b" := Ckpt 1%nat]> dir_spaced)))
  ∧ path_exists list_path
      (Dir (<[list_path := Text "b"]> (<["b" := Ckpt 1%nat]> dir_spaced)))
    = (Ok true,
       Dir (<[list_path := Text "b"]> (<["b" := Ckpt 1%nat]> dir_spaced))).
Proof.
  split; [by vm_compute|]. split; [by vm_compute|].
  split; [by apply (bool_decide_unpack _); vm_compute|].
  split; by vm_compute.
Qed.

(** C4 on a manifest with the file ["b"] and the missing file ["a"]. *)
Lemma save_checkpoint_prunes_witness :
  ∃ d',
    save 2%nat "c" false 1
      (Dir (<[list_path := Text ("b" +:+ newline +:+ "a")]>
              {[ "b" := Ckpt 1%nat ]}))
    = (Ok tt, Dir d')
    ∧ (∀ n, n ∈ drop (Z.to_nat 1) (updated "c" ["b"; "a"]) →
            n ≠ list_path → d' !! n = None)
    ∧ is_Some (d' !! list_path).
Proof.
  apply (save_checkpoint_prunes nat undecodable 2%nat "c" false 1
           (Dir (<[list_path := Text ("b" +:+ newline +:+ "a")]>
                   {[ "b" := Ckpt 1%nat ]}))
           ["b"; "a"]
           (<["c" := Ckpt 2%nat]>
              (<[list_path := Text ("b" +:+ newline +:+ "a")]>
                 {[ "b" := Ckpt 1%nat ]})));
    [lia|by vm_compute|].
  repeat constructor; by vm_compute.
Defined.

(** C5 on the path of a regular file. *)
Lemma get_previous_checkpoints_asserts_witness :
  listing Regular = (Raise AssertionError, Regular).
Proof.
  apply (get_previous_checkpoints_asserts nat undecodable Regular).
  reflexivity.
Defined.

(** C6 on a directory with one checkpoint and no manifest. *)
Lemma get_previous_checkpoints_creates_witness :
  listing (Dir {[ "a" := Ckpt 0%nat ]})
  = (Ok [], Dir (<[list_path := Text ""]> {[ "a" := Ckpt 0%nat ]})).
Proof.
  apply (get_previous_checkpoints_creates nat undecodable).
  by vm_compute.
Defined.

(** C7 without and with a best marker. *)
Lemma load_best_checkpoint_spec_witness :
  load_best (Dir {[ "a" := Ckpt 0%nat ]})
  = (Ok None, Dir {[ "a" := Ckpt 0%nat ]})
  ∧ load_best (Dir {[ best_path := Ckpt 7%nat ]})
    = (Ok (Some 7%nat), Dir {[ best_path := Ckpt 7%nat ]}).
Proof.
  split.
  - apply (proj1 (load_best_checkpoint_spec nat unloadable
                    (Dir {[ "a" := Ckpt 0%nat ]}))).
    by vm_compute.
  - apply (proj1 (proj2 (load_best_checkpoint_spec nat unloadable
                           (Dir {[ best_path := Ckpt 7%nat ]})))
             {[ best_path := Ckpt 7%nat ]} 7%nat); by vm_compute.
Defined.

(** C8, as stated, fails: a later call that saves under the name
    [best.ckpt] without [is_best] overwrites the best marker, and
    [load_best_checkpoint] returns the state of that call. *)
Lemma best_marker_overwritten :
  save_seq [Call 1%nat "a" true 1; Call 2%nat best_path false 1] Absent
  = (Ok tt, Dir (<[list_path := Text best_path]>
                   {[ best_path := Ckpt 2%nat ]}))
  ∧ last_best [Call 1%nat "a" true 1; Call 2%nat best_path false 1]
    = Some 1%nat
  ∧ load_best (Dir (<[list_path := Text best_path]>
                      {[ best_path := Ckpt 2%nat ]}))
    = (Ok (Some 2%nat),
       Dir (<[list_path := Text best_path]> {[ best_path := Ckpt 2%nat ]}))
  ∧ Some 2%nat ≠ Some 1%nat.
Proof. repeat split; by vm_compute. Qed.

(** C8 on four calls, the first and the third with [is_best]. *)
Lemma load_best_checkpoint_latest_witness :
  ∃ d,
    save_seq [Call 1%nat "a" true 1; Call 2%nat "b" false 1;
              Call 3%nat "c" true 1; Call 4%nat "d" false 1] Absent
    = (Ok tt, Dir d)
    ∧ load_best (Dir d) = (Ok (Some 3%nat), Dir d).
Proof.
  apply (load_best_checkpoint_latest nat undecodable unloadable);
    [by left| |done].
  repeat constructor; by vm_compute.
Defined.

(** C9, as stated, fails: the manifest line [./a] is not the name of the
    file ["a"], and the path it gives is that file.  The call with
    [max_keep = 1] drops the line, removes the file and returns. *)
Lemma frame_broken_by_dotted_entry :
  reads 1%nat "c" false
    (Dir (<[list_path := Text "./a"]> {[ "a" := Ckpt 0%nat ]}))
  = (Ok ["./a"],
     Dir (<["c" := Ckpt 1%nat]>
            (<[list_path := Text "./a"]> {[ "a" := Ckpt 0%nat ]})))
  ∧ save 1%nat "c" false 1
      (Dir (<[list_path := Text "./a"]> {[ "a" := Ckpt 0%nat ]}))
    = (Ok tt, Dir (<[list_path := Text "c"]> {[ "c" := Ckpt 1%nat ]}))
  ∧ Py.slice_from 1 (updated "c" ["./a"]) = ["./a"]
  ∧ (("a" : string) ∉ ["./a"])
  ∧ is_Some ((<[list_path := Text "./a"]> {[ "a" := Ckpt 0%nat ]}
                : gmap string (entry nat)) !! "a")
  ∧ ((<[list_path := Text "c"]> {[ "c" := Ckpt 1%nat ]}
        : gmap string (entry nat)) !! "a") = None.
Proof.
  split; [by vm_compute|]. split; [by vm_compute|]. split; [by vm_compute|].
  split; [by apply (bool_decide_unpack _); vm_compute|].
  split; [by apply (bool_decide_unpack _); vm_compute|by vm_compute].
Qed.

(** C9: a file that no dropped line names survives the pruning; the lines
    dropped are [./b] and ["a"]. *)
Lemma save_checkpoint_frame_witness :
  is_Some (opened (Dir (<[list_path := Text "c"]>
                          (<["c" := Ckpt 2%nat]>
                             {[ "notes.txt" := Text "kept" ]})))
             !! "notes.txt").
Proof.
  apply (save_checkpoint_frame nat undecodable 2%nat "c" false 1
           (Dir (<[list_path := Text ("./b" +:+ newline +:+ "a")]>
                   (<["b" := Ckpt 1%nat]> {[ "notes.txt" := Text "kept" ]})))
           ["./b"; "a"]
           (Dir (<["c" := Ckpt 2%nat]>
                   (<[list_path := Text ("./b" +:+ newline +:+ "a")]>
                      (<["b" := Ckpt 1%nat]>
                         {[ "notes.txt" := Text "kept" ]})))));
    [by vm_compute|by vm_compute| |].
  all: apply (bool_decide_unpack _); by vm_compute.
Defined.

End Examples.

(** ** More concrete directories, devices and curves *)

Section MoreExamples.

Local Abbreviation save := (save_checkpoint undecodable).
Local Abbreviation reads := (save_reads undecodable).
Local Abbreviation save_seq := (save_all undecodable).
Local Abbreviation listing := (get_previous_checkpoints undecodable).
Local Abbreviation load_best := (load_best_checkpoint unloadable).

(** X1 on two names and an empty directory. *)
Lemma manifest_write_read_witness :
  bind (open_write list_path (Py.join newline ["c"; "b"]))
    (λ _, listing) (Dir ∅)
  = (Ok ["c"; "b"],
     Dir (<[list_path := Text (Py.join newline ["c"; "b"])]> ∅)).
Proof.
  apply (manifest_write_read nat undecodable ∅ ["c"; "b"]); [done|].
  repeat constructor.
Defined.

(** X2 on a manifest with blank lines, spaces and a carriage return. *)
Lemma get_previous_checkpoints_clean_witness :
  Py.strip "b c" = "b c"
  ∧ Py.has_char Py.LF "b c" = false ∧ Py.has_char Py.CR "b c" = false.
Proof.
  apply (get_previous_checkpoints_clean nat undecodable
           (Dir {[ list_path :=
                     Text (" a " +:+ String Py.CR ("  b c" +:+ newline)) ]})
           ["a"; "b c"]
           (Dir {[ list_path :=
                     Text (" a " +:+ String Py.CR ("  b c" +:+ newline)) ]})
           "b c"); [by vm_compute|].
  apply (bool_decide_unpack _). by vm_compute.
Defined.

(** X3 on a directory without a manifest: the first call creates it. *)
Lemma get_previous_checkpoints_again_witness :
  listing (Dir {[ list_path := Text "" ]})
  = (Ok [], Dir {[ list_path := Text "" ]}).
Proof.
  apply (get_previous_checkpoints_again nat undecodable (Dir ∅)).
  by vm_compute.
Defined.

(** X4 on four names with room for two. *)
Lemma manifest_most_recent_first_witness :
  ∃ d,
    save_seq [Call 0%nat "a" false 2; Call 1%nat "b" true 2;
              Call 2%nat "c" false 2; Call 3%nat "d" false 2] Absent
    = (Ok tt, Dir d)
    ∧ listing (Dir d)
      = (Ok (take (Z.to_nat 2) (reverse ["a"; "b"; "c"; "d"])), Dir d).
Proof.
  apply (manifest_most_recent_first nat undecodable 2
           [Call 0%nat "a" false 2; Call 1%nat "b" true 2;
            Call 2%nat "c" false 2; Call 3%nat "d" false 2] Absent);
    [lia|by left|done|repeat constructor|].
  apply (bool_decide_unpack _). by vm_compute.
Defined.

(** X5 on three calls, one of them with the name of an earlier one. *)
Lemma save_all_no_leak_witness :
  ∃ d m,
    save_seq [Call 0%nat "a" true 1; Call 1%nat "b" false 2;
              Call 2%nat "a" false 1] (Dir ∅)
    = (Ok tt, Dir d)
    ∧ listing (Dir d) = (Ok m, Dir d)
    ∧ ∀ n, is_Some (d !! n) → n = list_path ∨ n = best_path ∨ n ∈ m.
Proof.
  apply (save_all_no_leak nat undecodable _ (Dir ∅));
    [by right|done|repeat constructor].
Defined.

(** X6 on two calls without [is_best]. *)
Lemma load_best_checkpoint_unset_witness :
  ∃ fs',
    save_seq [Call 0%nat "a" false 1; Call 1%nat "b" false 1] Absent
    = (Ok tt, fs')
    ∧ load_best fs' = (Ok None, fs').
Proof.
  apply (load_best_checkpoint_unset nat undecodable unloadable _ Absent);
    [by left|].
  repeat constructor; by vm_compute.
Defined.

(** X7 with [max_keep = 0], [is_best] and the name [best.ckpt]: the best
    marker is removed with the checkpoint. *)
Lemma save_checkpoint_keeps_nothing_witness :
  ∃ d',
    save 5%nat best_path true 0 Absent = (Ok tt, Dir d')
    ∧ listing (Dir d') = (Ok [], Dir d')
    ∧ is_file best_path (Dir d') = (Ok false, Dir d')
    ∧ (true = true → best_path ≠ best_path →
       load_best (Dir d') = (Ok (Some 5%nat), Dir d'))
    ∧ (best_path = best_path → load_best (Dir d') = (Ok None, Dir d')).
Proof.
  apply (save_checkpoint_keeps_nothing nat undecodable unloadable 5%nat
           best_path true 0 Absent); [lia|by left|done].
Defined.

(** X8: three names kept, then the oldest saved again with room for one. *)
Lemma save_checkpoint_removes_own_file_witness :
  ∃ d',
    save 9%nat "a" false 1
      (Dir (<[list_path := Text (Py.join newline ["c"; "b"; "a"])]>
              (<["c" := Ckpt 2%nat]>
                 (<["b" := Ckpt 1%nat]> {[ "a" := Ckpt 0%nat ]}))))
    = (Ok tt, Dir d')
    ∧ is_file "a" (Dir d') = (Ok false, Dir d')
    ∧ listing (Dir d')
      = (Ok (take (Z.to_nat 1) ["c"; "b"; "a"]), Dir d')
    ∧ ("a" : string) ∉ take (Z.to_nat 1) ["c"; "b"; "a"].
Proof.
  apply (save_checkpoint_removes_own_file nat undecodable
           [Call 0%nat "a" false 3; Call 1%nat "b" false 3;
            Call 2%nat "c" false 3] Absent);
    [lia|by left|repeat constructor|by vm_compute|by vm_compute|].
  apply (bool_decide_unpack _). by vm_compute.
Defined.

(** A directory whose manifest lists the files ["c"] and ["a"] and the
    subdirectory ["sub"], and what the reading of a call with the name
    ["a"] leaves. *)
Local Abbreviation dir_sub :=
  (<["c" := Ckpt 1%nat]>
     (<["a" := Ckpt 0%nat]>
        (<["sub" := Subdir]>
           {[ list_path := Text (Py.join newline ["c"; "a"; "sub"]) ]}))
   : gmap string (entry nat)).
Local Abbreviation dir_sub_read :=
  (<["a" := Ckpt 2%nat]> dir_sub : gmap string (entry nat)).

(** X9 on that directory: the checkpoint ["a"] the call has just written
    is removed, and ["sub"] stops the loop. *)
Lemma save_checkpoint_raises_in_pruning_witness :
  ∃ removed x rest,
    Py.slice_from 1 (updated "a" ["c"; "a"; "sub"]) = removed ++ x :: rest
    ∧ Forall (unlinkable dir_sub_read) removed
    ∧ stops_at dir_sub_read x IsADirectoryError
    ∧ Dir (delete "a" dir_sub_read)
      = Dir (remove_all (entries_of removed) dir_sub_read)
    ∧ ∀ n, opened (Dir (delete "a" dir_sub_read)) !! n
           = if decide (n ∈ entries_of removed) then None
             else dir_sub_read !! n.
Proof.
  apply (save_checkpoint_raises_in_pruning nat undecodable 2%nat "a" false 1
           (Dir dir_sub) ["c"; "a"; "sub"] dir_sub_read IsADirectoryError
           (Dir (delete "a" dir_sub_read))); by vm_compute.
Defined.

(** X10 on a regular file in place of the directory, and on the directory
    above. *)
Lemma save_checkpoint_assertion_holds_witness :
  save 0%nat "a" false 1 Regular = (Raise FileExistsError, Regular)
  ∧ save 2%nat "a" false 1 (Dir dir_sub)
    ≠ (Raise AssertionError, Dir (delete "a" dir_sub_read)).
Proof.
  split.
  - by apply (proj1 (save_checkpoint_assertion_holds nat undecodable 0%nat
                       "a" false 1 Regular)).
  - apply (proj2 (save_checkpoint_assertion_holds nat undecodable 2%nat "a"
                    false 1 (Dir dir_sub))).
Defined.

(** The objects of the examples are numbers, and moving one to a device
    adds the length of the name of the device. *)
Local Abbreviation move := (λ (x : nat) (device : string),
                             (x + String.length device)%nat).

(** X11 on a tuple of two objects, with CUDA. *)
Lemma to_cuda_members_witness :
  to_cuda move true false (PyTuple [Object 1%nat; Object 2%nat])
  = Some (PyList [Object 5%nat; Object 6%nat])
  ∧ get_device true false = "cuda".
Proof.
  destruct (to_cuda_members move true false [1%nat; 2%nat])
    as (Htuple & _ & Hdev).
  split; [exact Htuple|by apply Hdev].
Defined.

(** X12 on a list with a list inside, and on a tuple with a number
    inside. *)
Lemma to_cuda_nested_witness :
  to_cuda move false true (PyList [Object 1%nat; PyList [Object 2%nat]])
  = None
  ∧ to_cuda move false true (PyTuple [Object 1%nat; Plain "3"]) = None.
Proof.
  split.
  - apply (proj1 (to_cuda_nested move false true
                    [Object 1%nat; PyList [Object 2%nat]])).
    apply Exists_cons_tl, Exists_cons_hd. by intros t.
  - apply (proj2 (proj1 (proj2 (proj2 (to_cuda_nested move false true
                                         [Object 1%nat; Plain "3"])))
                    (Plain "3") ltac:(repeat constructor)
                    (or_intror (ex_intro _ "3" eq_refl)))).
Defined.

(** The curves of the examples: steps and losses are numbers, the mean is
    the sum and the deviation the number of points. *)
Local Abbreviation plot :=
  (plot_loss (Step := nat) (Tensor := nat) (Num := nat)
     (λ t, t) (λ _, "int") (λ _, "float")
     (λ l, foldr Nat.add 0%nat l) (λ l, length l) Nat.sub Nat.add).

(** X13 on the empty dictionary. *)
Lemma plot_loss_index_error_witness :
  plot [] None 1 true = ([], IndexError)
  ∧ ([] : list (nat * loss_val nat nat)) = [].
Proof.
  split.
  - by apply (proj1 (plot_loss_index_error (λ t, t) (λ _, "int")
                       (λ _, "float") (λ l, foldr Nat.add 0%nat l)
                       (λ l, length l) Nat.sub Nat.add [] None 1 true)).
  - by apply (proj2 (plot_loss_index_error (λ t, t) (λ _, "int")
                       (λ _, "float") (λ l, foldr Nat.add 0%nat l)
                       (λ l, length l) Nat.sub Nat.add [] None 1 true)).
Defined.

(** Twelve entries: the steps 100 to 111 with the losses 0 to 11. *)
Local Abbreviation twelve :=
  ((λ i, ((100 + i)%nat, @NumberLoss nat nat i)) <$> seq 0 12).

(** X14 on the twelve entries with [npoints_to_average = 3]: one point,
    the sum of the first ten losses, at step 105. *)
Lemma plot_loss_blocks_of_ten_witness :
  plot twelve (Some "loss") 3 true
  = ([Print "global_steps[0] type: int"; Print "loss[0] type: float";
      Plot [105%nat] [45%nat] (Some "loss (mean over 10 steps)");
      FillBetween [105%nat] [35%nat] [55%nat] "loss variance over 10 steps"],
     Returned).
Proof.
  destruct (plot_loss_blocks_of_ten (λ t, t) (λ _, "int") (λ _, "float")
              (λ l, foldr Nat.add 0%nat l) (λ l, length l) Nat.sub Nat.add
              (100%nat, NumberLoss 0%nat)
              ((λ i, ((100 + i)%nat, @NumberLoss nat nat i)) <$> seq 1 11)
              (Some "loss") 3)
    as (steps & Hlen & Hlook & Hplot); [done|].
  etrans; [exact Hplot|]. clear Hplot.
  destruct steps as [|s [|??]]; try done.
  specialize (Hlook 0%nat ltac:(vm_compute; lia)).
  injection Hlook as ->. by vm_compute.
Defined.

(** X15 on the raw curve of one entry. *)
Lemma plot_loss_same_lengths_witness :
  length [7%nat] = length [3%nat].
Proof.
  apply (plot_loss_same_lengths (λ t, t) (λ _, "int") (λ _, "float")
           (λ l, foldr Nat.add 0%nat l) (λ l, length l) Nat.sub Nat.add
           [(7%nat, NumberLoss 3%nat)] None 1 true
           (Plot [7%nat] [3%nat] None)).
  vm_compute. repeat constructor.
Defined.

(** X16: the last two of the twelve entries change nothing. *)
Lemma plot_loss_drops_last_block_witness :
  plot (take 10 twelve ++ drop 10 twelve) None 0 true
  = plot (take 10 twelve) None 0 true.
Proof.
  apply (plot_loss_drops_last_block (λ t, t) (λ _, "int") (λ _, "float")
           (λ l, foldr Nat.add 0%nat l) (λ l, length l) Nat.sub Nat.add);
    [done|done|done|vm_compute; lia].
Defined.

(** X17 on three entries. *)
Lemma plot_loss_short_witness :
  plot [(1%nat, NumberLoss 5%nat); (2%nat, TensorLoss 4%nat);
        (3%nat, NumberLoss 3%nat)] None 10 true
  = ([Print "global_steps[0] type: int"; Print "loss[0] type: float";
      Plot [] [] (Some "None (mean over 10 steps)");
      FillBetween [] [] [] "None variance over 10 steps"],
     Returned).
Proof.
  apply (plot_loss_short (λ t, t) (λ _, "int") (λ _, "float")
           (λ l, foldr Nat.add 0%nat l) (λ l, length l) Nat.sub Nat.add
           (1%nat, NumberLoss 5%nat)
           [(2%nat, TensorLoss 4%nat); (3%nat, NumberLoss 3%nat)] None 10);
    [done|vm_compute; lia].
Defined.

End MoreExamples.
